(** * Pan/tilt cat tracker: target selection, proportional control and scan

    A shallow embedding of [cat_tracker/cat_tracker.py] (the per-frame
    control loop of [main] and [get_class_ids]), of
    [cat_tracker/servo_driver.py] (the servo drivers) and of
    [cat_tracker/test_servo.py] (the sweep of the servo test), together
    with the properties the specification states about them and further
    properties read off the code.

    Python numbers are modelled as they are at run time: an [int] is a [Z],
    a [float] is an IEEE-754 binary64 value ([spec_float] with 53 bits of
    precision), and the operations round to nearest, ties to even.  Python
    exceptions are modelled by the [Raise] constructor of [result]. *)

From Stdlib Require Import ZArith Lia List String.
From Stdlib Require Import Floats.SpecFloat.
From stdpp Require Import base option list gmap.

Open Scope Z_scope.

(* ================================================================== *)
(** ** Exceptions and results *)

Inductive exn :=
| ValueError
| OverflowError
| ZeroDivisionError
| IndexError
| SystemExit
| KeyboardInterrupt
| DeviceError.

Inductive result (A : Type) :=
| Ok (a : A)
| Raise (e : exn).

Arguments Ok {A} a.
Arguments Raise {A} e.

Global Instance result_ret : MRet result := fun A a => Ok a.

Global Instance result_bind : MBind result := fun A B f m =>
  match m with
  | Ok a => f a
  | Raise e => Raise e
  end.

Definition is_ok {A} (r : result A) : bool :=
  match r with Ok _ => true | Raise _ => false end.

(* ================================================================== *)
(** ** Python numbers *)

Module PyNum.

(** binary64 *)
Definition prec : Z := 53.
Definition emax : Z := 1024.

Abbreviation float := spec_float.

Definition fadd : float -> float -> float := SFadd prec emax.
Definition fsub : float -> float -> float := SFsub prec emax.
Definition fmul : float -> float -> float := SFmul prec emax.
Definition fopp : float -> float := SFopp.
Definition fabs : float -> float := SFabs.
Definition fltb : float -> float -> bool := SFltb.

(** [float(z)] before the overflow check: the nearest binary64 value. *)
Definition Z2F (z : Z) : float := binary_normalize prec emax z 0 false.

(** [a / b] on floats; Python raises on a zero divisor where IEEE-754
    returns an infinity or a NaN. *)
Definition fdiv (a b : float) : result float :=
  match b with
  | S754_zero _ => Raise ZeroDivisionError
  | _ => Ok (SFdiv prec emax a b)
  end.

(** A run-time number: the clamps of the loop return either the [int]
    bound or the [float] angle, so the angle variables hold both kinds. *)
Inductive num :=
| Int (z : Z)
| Flt (f : float).

(** The coercion Python applies to an [int] operand of mixed arithmetic,
    and [float(x)]. *)
Definition to_float (n : num) : result float :=
  match n with
  | Int z =>
      match Z2F z with
      | S754_infinity _ => Raise OverflowError
      | f => Ok f
      end
  | Flt f => Ok f
  end.

(** Exact comparison of an [int] with a [float], as Python performs it
    (no rounding of the [int]). [None] stands for an unordered pair. *)
Definition Zcompare_float (z : Z) (f : float) : option comparison :=
  match f with
  | S754_nan => None
  | S754_infinity s => Some (if s then Gt else Lt)
  | S754_zero _ => Some (z ?= 0)
  | S754_finite s m e =>
      let v := cond_Zopp s (Zpos m) in
      if 0 <=? e then Some (z ?= v * 2 ^ e)
      else Some (z * 2 ^ (- e) ?= v)
  end.

(** The ways every [int] compares with a given float: not at all (NaN),
    all below or all above (the infinities), or as [z * K] compares with
    [V] for a positive [K] (the float is [V / K]). *)
Inductive cut (f : float) : Prop :=
| cut_nan : (forall z, Zcompare_float z f = None) -> cut f
| cut_above : (forall z, Zcompare_float z f = Some Lt) -> cut f
| cut_below : (forall z, Zcompare_float z f = Some Gt) -> cut f
| cut_at (K V : Z) :
    0 < K -> (forall z, Zcompare_float z f = Some (z * K ?= V)) -> cut f.

Definition num_compare (a b : num) : option comparison :=
  match a, b with
  | Int x, Int y => Some (x ?= y)
  | Int x, Flt g => Zcompare_float x g
  | Flt f, Int y => option_map CompOpp (Zcompare_float y f)
  | Flt f, Flt g => SFcompare f g
  end.

Definition py_lt (a b : num) : bool :=
  match num_compare a b with Some Lt => true | _ => false end.
Definition py_gt (a b : num) : bool :=
  match num_compare a b with Some Gt => true | _ => false end.
Definition py_le (a b : num) : bool :=
  match num_compare a b with Some (Lt | Eq) => true | _ => false end.
Definition py_ge (a b : num) : bool :=
  match num_compare a b with Some (Gt | Eq) => true | _ => false end.
Definition py_eq (a b : num) : bool :=
  match num_compare a b with Some Eq => true | _ => false end.

(** [min(a, b)] and [max(a, b)]: the first argument is kept unless the
    second is strictly smaller (resp. greater). *)
Definition py_min (a b : num) : num := if py_lt b a then b else a.
Definition py_max (a b : num) : num := if py_gt b a then b else a.

(** [int(x)]: truncation toward zero. *)
Definition int_of_float (f : float) : result Z :=
  match f with
  | S754_nan => Raise ValueError
  | S754_infinity _ => Raise OverflowError
  | S754_zero _ => Ok 0
  | S754_finite s m e =>
      Ok (cond_Zopp s (if 0 <=? e then Zpos m * 2 ^ e
                       else Zpos m / 2 ^ (- e)))
  end.

Definition py_int (n : num) : result Z :=
  match n with
  | Int z => Ok z
  | Flt f => int_of_float f
  end.

(** [round(x)] with one argument: the nearest [int], a tie going to the
    even neighbour. *)
Definition round_float (f : float) : result Z :=
  match f with
  | S754_nan => Raise ValueError
  | S754_infinity _ => Raise OverflowError
  | S754_zero _ => Ok 0
  | S754_finite s m e =>
      if 0 <=? e then Ok (cond_Zopp s (Zpos m * 2 ^ e))
      else
        let d := 2 ^ (- e) in
        let q := Zpos m / d in
        let r := Zpos m mod d in
        Ok (cond_Zopp s
              match 2 * r ?= d with
              | Lt => q
              | Gt => q + 1
              | Eq => if Z.even q then q else q + 1
              end)
  end.

Definition py_round (n : num) : result Z :=
  match n with
  | Int z => Ok z
  | Flt f => round_float f
  end.

(** Truth value of a number ([bool(x)]): zero is false, NaN is true. *)
Definition truthy (n : num) : bool :=
  match n with
  | Int z => negb (z =? 0)
  | Flt (S754_zero _) => false
  | Flt _ => true
  end.

(** Classification of floats. *)
Definition is_nan (f : float) : bool :=
  match f with S754_nan => true | _ => false end.

Definition is_finite (f : float) : bool :=
  match f with S754_zero _ | S754_finite _ _ _ => true | _ => false end.

(** An [int] every binary64 conversion of which is exact. *)
Definition small (z : Z) : bool := Z.abs z <? 2 ^ 53.

(** Float literals of the program, given by mantissa and exponent. *)
Definition f0_0 : float := S754_zero false.
Definition f0_5 : float := S754_finite false 4503599627370496 (-53).
Definition f2_0 : float := S754_finite false 4503599627370496 (-51).
Definition f0_05 : float := S754_finite false 7205759403792794 (-57).
Definition f0_55 : float := S754_finite false 4953959590107546 (-53).

End PyNum.

Import PyNum.

(* ================================================================== *)
(** ** Servo drivers ([servo_driver.py]; inlined again in [cat_tracker.py]
       as [_MockServo] and [_PCA9685Servo] with the same bodies) *)

Module Servo.

(** [l[i]] on a Python list: a negative index counts from the end, an
    index outside the list raises. *)
Definition list_index {A} (l : list A) (i : Z) : result nat :=
  let n := Z.of_nat (length l) in
  let j := if i <? 0 then i + n else i in
  if (0 <=? j) && (j <? n) then Ok (Z.to_nat j) else Raise IndexError.

(** [max(0, min(180, a))] on an [int]. *)
Definition clamp_0_180 (a : Z) : Z := Z.max 0 (Z.min 180 a).

(** The interface both drivers offer to the tracker. *)
Class ServoDriver (D : Type) := {
  set_angle : D -> Z -> num -> result D;
  get_angle : D -> Z -> result num
}.

(** *** [MockServo] *)

Record MockServo := { _angles : list Z }.

Definition MockServo_init (num_ports : Z) : MockServo :=
  {| _angles := replicate (Z.to_nat num_ports) 90 |}.

Definition MockServo_set_angle (self : MockServo) (port : Z) (angle : num)
  : result MockServo :=
  a ← py_int angle;
  i ← list_index (_angles self) port;
  Ok {| _angles := <[i := clamp_0_180 a]> (_angles self) |}.

Definition MockServo_get_angle (self : MockServo) (port : Z) : result num :=
  i ← list_index (_angles self) port;
  match _angles self !! i with
  | Some v => Ok (Int v)
  | None => Raise IndexError
  end.

Global Instance MockServo_driver : ServoDriver MockServo := {
  set_angle := MockServo_set_angle;
  get_angle := MockServo_get_angle
}.

(** *** [PCA9685Servo]

    The wrapper around [adafruit_servokit.ServoKit].  The kit is an
    external library: it is kept abstract, as a store that can be written
    ([kit.servo[port].angle = a]) and read ([kit.servo[port].angle], which
    is a number or [None]). *)

Class ServoKit (K : Type) := {
  kit_write : K -> Z -> Z -> result K;
  kit_read : K -> Z -> result (option num)
}.

Section PCA9685.
Context {K : Type} `{ServoKit K}.

Record PCA9685Servo := { _kit : K }.

(** [for i in range(num_ports): self._kit.servo[i].angle = 90] *)
Fixpoint init_ports (k : K) (i : Z) (n : nat) : result K :=
  match n with
  | O => Ok k
  | S n' => k' ← kit_write k i 90; init_ports k' (i + 1) n'
  end.

Definition PCA9685Servo_init (kit : K) (num_ports : Z) : result PCA9685Servo :=
  k ← init_ports kit 0 (Z.to_nat num_ports);
  Ok {| _kit := k |}.

Definition PCA9685Servo_set_angle (self : PCA9685Servo) (port : Z) (angle : num)
  : result PCA9685Servo :=
  a ← py_int angle;
  k ← kit_write (_kit self) port (clamp_0_180 a);
  Ok {| _kit := k |}.

(** [return self._kit.servo[port].angle or 90] *)
Definition PCA9685Servo_get_angle (self : PCA9685Servo) (port : Z) : result num :=
  v ← kit_read (_kit self) port;
  Ok match v with
     | Some n => if truthy n then n else Int 90
     | None => Int 90
     end.

Global Instance PCA9685Servo_driver : ServoDriver PCA9685Servo := {
  set_angle := PCA9685Servo_set_angle;
  get_angle := PCA9685Servo_get_angle
}.
End PCA9685.

Arguments PCA9685Servo K : clear implicits.

(** A kit that reads back exactly what was last written to a channel, and
    [None] on a channel never written. *)
Definition StoreKit : Type := gmap Z Z.

Global Instance StoreKit_kit : ServoKit StoreKit := {
  kit_write k port a := Ok (<[port := a]> k);
  kit_read k port := Ok (Int <$> k !! port)
}.

End Servo.

Import Servo.

(* ================================================================== *)
(** ** The tracker ([cat_tracker.py]) *)

Module Tracker.

(** The module-level constants. *)
Record config := {
  PAN_SERVO_PORT : Z;
  TILT_SERVO_PORT : Z;
  PAN_CENTER : Z;
  TILT_CENTER : Z;
  PAN_RANGE : Z * Z;
  TILT_RANGE : Z * Z;
  DEADZONE : float;
  SCAN_STEP : float;
  SCAN_START_FRAMES : Z
}.

(** The command-line arguments the loop reads. *)
Record arguments := {
  gain : float;
  min_width : Z;
  min_height : Z;
  invert_pan : bool;
  invert_tilt : bool
}.

(** The values written in the source. *)
Definition source_config : config := {|
  PAN_SERVO_PORT := 0;
  TILT_SERVO_PORT := 1;
  PAN_CENTER := 90;
  TILT_CENTER := 90;
  PAN_RANGE := (30, 150);
  TILT_RANGE := (50, 130);
  DEADZONE := f0_05;
  SCAN_STEP := f2_0;
  SCAN_START_FRAMES := 10
|}.

(** [GAIN], [MIN_TRACK_WIDTH], [MIN_TRACK_HEIGHT] and no inversion. *)
Definition default_arguments : arguments := {|
  gain := f0_55;
  min_width := 0;
  min_height := 0;
  invert_pan := false;
  invert_tilt := false
|}.

(** One row of [boxes.data]: [x1, y1, x2, y2, (track_id,) conf, cls]. *)
Abbreviation row := (list float).

(** What the camera and the detector deliver for one iteration:
    [frame.shape[:2]] and [results[0].boxes.data] ([None] when the detector
    gives no boxes). *)
Record frame := {
  shape : Z * Z;
  boxes_data : option (list row)
}.

(** A row once its columns are converted (lines 364-374). *)
Record detection := {
  x1 : Z;
  y1 : Z;
  x2 : Z;
  y2 : Z;
  cls_id : Z;
  conf : float
}.

(** [best_cx], [best_cy] (assigned together), [best_area], [best_label]. *)
Record best := {
  best_c : option (float * float);
  best_area : Z;
  best_label : option string
}.

(** The variables the loop carries from one frame to the next. *)
Record vars := {
  pan_angle : num;
  tilt_angle : num;
  scan_direction : Z;
  frames_no_target : Z
}.

(** What the program does to the outside: servo commands and the release
    of the camera, in the order they happen. *)
Inductive event :=
| SetAngle (port : Z) (angle : Z)
| CapRelease.

Record world (D : Type) := {
  servo : D;
  trace : list event
}.

Arguments servo {D} w.
Arguments trace {D} w.

(** Computations of [main]: they may command the servo and may raise; what
    was done before an exception stays done. *)
Definition M (D A : Type) : Type := world D -> result A * world D.

Global Instance M_ret {D} : MRet (M D) := fun A a w => (Ok a, w).

Global Instance M_bind {D} : MBind (M D) := fun A B f m w =>
  match m w with
  | (Ok a, w') => f a w'
  | (Raise e, w') => (Raise e, w')
  end.

Definition lift {D A} (r : result A) : M D A := fun w => (r, w).

Definition try_finally {D A} (body : M D A) (final : M D unit) : M D A :=
  fun w =>
    let '(r, w1) := body w in
    match final w1 with
    | (Ok _, w2) => (r, w2)
    | (Raise e, w2) => (Raise e, w2)
    end.

Section Main.
Context {D : Type} `{ServoDriver D}.
Variable cfg : config.
Variable args : arguments.
Variable class_ids : list Z.
Variable names : gmap Z string.

(** [servo.set_angle(port, angle)] *)
Definition servo_set_angle (port angle : Z) : M D unit := fun w =>
  let tr := trace w ++ [SetAngle port angle] in
  match set_angle (servo w) port (Int angle) with
  | Ok d => (Ok (), {| servo := d; trace := tr |})
  | Raise e => (Raise e, {| servo := servo w; trace := tr |})
  end.

(** [cap.release()] *)
Definition cap_release : M D unit := fun w =>
  (Ok (), {| servo := servo w; trace := trace w ++ [CapRelease] |}).

(** [z / 2.0] for an [int] [z]. *)
Definition half (z : Z) : result float :=
  f ← to_float (Int z); fdiv f f2_0.

(** [cls_id, conf] of a row, from the columns after the box (lines 369-374). *)
Definition cls_conf (rest : list float) : result (Z * float) :=
  match rest with
  | _ :: r5 :: r6 :: _ => c ← int_of_float r6; Ok (c, r5)
  | r4 :: r5 :: _ => c ← int_of_float r5; Ok (c, r4)
  | _ => Ok (0, f0_0)
  end.

(** Lines 362-374: the box and the class read from a row; [None] for a
    row of fewer than four columns, which the loop skips. *)
Definition parse_row (r : row) : result (option detection) :=
  match r with
  | r0 :: r1 :: r2 :: r3 :: rest =>
      x1 ← int_of_float r0;
      y1 ← int_of_float r1;
      x2 ← int_of_float r2;
      y2 ← int_of_float r3;
      '(cls_id, conf) ← cls_conf rest;
      Ok (Some {| x1 := x1; y1 := y1; x2 := x2; y2 := y2;
                  cls_id := cls_id; conf := conf |})
  | _ => Ok None
  end.

Definition w_px (d : detection) : Z := x2 d - x1 d.
Definition h_px (d : detection) : Z := y2 d - y1 d.
Definition area (d : detection) : Z := w_px d * h_px d.

(** [names.get(cls_id, "?")] *)
Definition label (d : detection) : string :=
  default "?"%string (names !! cls_id d).

(** The test of lines 377-382, without [area > best_area]. *)
Definition wanted (d : detection) : bool :=
  bool_decide (cls_id d ∈ class_ids)
  && (min_width args <=? w_px d) && (min_height args <=? h_px d).

(** [((x1 + x2) / 2.0, (y1 + y2) / 2.0)] *)
Definition centre (d : detection) : result (float * float) :=
  cx ← half (x1 d + x2 d);
  cy ← half (y1 d + y2 d);
  Ok (cx, cy).

(** Lines 377-386: the detection replaces the best one so far when it is
    wanted and strictly larger. *)
Definition consider (d : detection) (b : best) : result best :=
  if wanted d && (best_area b <? area d) then
    c ← centre d;
    Ok {| best_c := Some c; best_area := area d;
          best_label := Some (label d) |}
  else Ok b.

(** The body of [for row in data] (lines 362-387). *)
Definition row_body (r : row) (b : best) : result best :=
  d ← parse_row r;
  match d with
  | Some d => consider d b
  | None => Ok b
  end.

Fixpoint for_rows (data : list row) (b : best) : result best :=
  match data with
  | [] => Ok b
  | r :: data' => b' ← row_body r b; for_rows data' b'
  end.

(** Lines 353-356. *)
Definition no_best : best :=
  {| best_c := None; best_area := 0; best_label := None |}.

(** Lines 353-387: the choice of the target of the frame. *)
Definition select (boxes : option (list row)) : result best :=
  match boxes with
  | Some data => for_rows data no_best
  | None => Ok no_best
  end.

(** Lines 340-387: what is computed from the frame before the servo is
    driven: [center_x], [center_y] and the target. *)
Definition observe (f : frame) : result (float * float * best) :=
  let '(h, w) := shape f in
  center_x ← half w;
  center_y ← half h;
  b ← select (boxes_data f);
  Ok (center_x, center_y, b).

(** Lines 422-423 for one axis:
    [(best_c - center) / max(center, 1)]. *)
Definition raw_error (best_c center : float) : result float :=
  d ← to_float (py_max (Flt center) (Int 1));
  fdiv (fsub best_c center) d.

(** Lines 422-431 for one axis: the error, inverted on demand, replaced
    by the [int] [0] inside the dead zone. *)
Definition axis_error (best_c center : float) (invert : bool) : result num :=
  err ← raw_error best_c center;
  let err := if invert then fopp err else err in
  Ok (if fltb (fabs err) (DEADZONE cfg) then Int 0 else Flt err).

(** [max(range[0], min(range[1], angle))] *)
Definition clamp (range : Z * Z) (angle : num) : num :=
  py_max (Int (fst range)) (py_min (Int (snd range)) angle).

(** Lines 432-435 for one axis:
    [angle + args.gain * err * (range[1] - range[0]) * 0.5], clamped. *)
Definition axis_move (angle err : num) (range : Z * Z) : result num :=
  e ← to_float err;
  r ← to_float (Int (snd range - fst range));
  a ← to_float angle;
  Ok (clamp range (Flt (fadd a (fmul (fmul (fmul (gain args) e) r) f0_5)))).

(** Lines 422-435: the new pan and tilt angles when a target is tracked. *)
Definition track (st : vars) (best_cx best_cy center_x center_y : float)
  : result (num * num) :=
  err_x ← axis_error best_cx center_x (invert_pan args);
  err_y ← axis_error best_cy center_y (invert_tilt args);
  pan ← axis_move (pan_angle st) err_x (PAN_RANGE cfg);
  tilt ← axis_move (tilt_angle st) err_y (TILT_RANGE cfg);
  Ok (pan, tilt).

(** Lines 443-449: one step of the left-right scan; the new pan angle and
    the new scan direction. *)
Definition scan (st : vars) : result (num * Z) :=
  a ← to_float (pan_angle st);
  d ← to_float (Int (scan_direction st));
  let pan := Flt (fadd a (fmul d (SCAN_STEP cfg))) in
  if py_ge pan (Int (snd (PAN_RANGE cfg))) then
    f ← to_float (Int (snd (PAN_RANGE cfg))); Ok (Flt f, -1)
  else if py_le pan (Int (fst (PAN_RANGE cfg))) then
    f ← to_float (Int (fst (PAN_RANGE cfg))); Ok (Flt f, 1)
  else Ok (pan, scan_direction st).

(** Lines 436-437 and 450-451: both angles are sent, rounded. *)
Definition command (pan tilt : num) : M D unit :=
  p ← lift (py_round pan);
  servo_set_angle (PAN_SERVO_PORT cfg) p;;
  t ← lift (py_round tilt);
  servo_set_angle (TILT_SERVO_PORT cfg) t.

(** One iteration of [while cap.isOpened()] on a frame that was read
    (lines 340-451; drawing and printing left out).  The test [if servo:]
    is always true: the driver objects define neither [__bool__] nor
    [__len__]. *)
Definition frame_body (f : frame) (st : vars) : M D vars :=
  '(center_x, center_y, b) ← lift (observe f);
  match best_c b with
  | Some (best_cx, best_cy) =>
      '(pan, tilt) ← lift (track st best_cx best_cy center_x center_y);
      command pan tilt;;
      mret {| pan_angle := pan; tilt_angle := tilt;
              scan_direction := scan_direction st;
              frames_no_target := 0 |}
  | None =>
      let n := frames_no_target st + 1 in
      if SCAN_START_FRAMES cfg <=? n then
        '(pan, dir) ← lift (scan st);
        command pan (tilt_angle st);;
        mret {| pan_angle := pan; tilt_angle := tilt_angle st;
                scan_direction := dir; frames_no_target := n |}
      else
        mret {| pan_angle := pan_angle st; tilt_angle := tilt_angle st;
                scan_direction := scan_direction st;
                frames_no_target := n |}
  end.

(** What one turn of the loop meets: a frame, or an exception raised by
    the camera, the detector or the operator before the servo is touched.
    The list ends when the camera closes, a read fails or [q] is pressed. *)
Inductive tick :=
| Frame (f : frame)
| Fault (e : exn).

Fixpoint loop (ticks : list tick) (st : vars) : M D vars :=
  match ticks with
  | [] => mret st
  | Frame f :: ticks' => st' ← frame_body f st; loop ticks' st'
  | Fault e :: _ => lift (Raise e)
  end.

(** Lines 302-305. *)
Definition initial_vars : result vars :=
  pan ← to_float (Int (PAN_CENTER cfg));
  tilt ← to_float (Int (TILT_CENTER cfg));
  Ok {| pan_angle := Flt pan; tilt_angle := Flt tilt;
        scan_direction := 1; frames_no_target := 0 |}.

(** Lines 495-499, the [finally] clause. *)
Definition cleanup : M D unit :=
  cap_release;;
  servo_set_angle (PAN_SERVO_PORT cfg) (PAN_CENTER cfg);;
  servo_set_angle (TILT_SERVO_PORT cfg) (TILT_CENTER cfg).

(** [main] from line 263 on, with the camera open and the servo driver
    created. *)
Definition main (ticks : list tick) : M D vars :=
  if bool_decide (class_ids = []) then lift (Raise SystemExit)
  else
    servo_set_angle (PAN_SERVO_PORT cfg) (PAN_CENTER cfg);;
    servo_set_angle (TILT_SERVO_PORT cfg) (TILT_CENTER cfg);;
    st ← lift initial_vars;
    try_finally (loop ticks st) cleanup.

End Main.

End Tracker.

Import Tracker.

(* ================================================================== *)
(** ** The vocabulary of the specification *)

Module Spec.

(** [min_angle <= x <= max_angle], compared exactly. *)
Definition within (range : Z * Z) (x : num) : bool :=
  py_le (Int (fst range)) x && py_le x (Int (snd range)).

(** An axis configuration as the specification has it:
    [min_angle <= center_angle <= max_angle], with bounds that binary64
    holds exactly; and a scan step that is a number. *)
Definition well_formed (cfg : config) : bool :=
  (fst (PAN_RANGE cfg) <=? PAN_CENTER cfg)
  && (PAN_CENTER cfg <=? snd (PAN_RANGE cfg))
  && (fst (TILT_RANGE cfg) <=? TILT_CENTER cfg)
  && (TILT_CENTER cfg <=? snd (TILT_RANGE cfg))
  && small (fst (PAN_RANGE cfg)) && small (snd (PAN_RANGE cfg))
  && small (fst (TILT_RANGE cfg)) && small (snd (TILT_RANGE cfg))
  && small (snd (PAN_RANGE cfg) - fst (PAN_RANGE cfg))
  && small (snd (TILT_RANGE cfg) - fst (TILT_RANGE cfg))
  && negb (is_nan (SCAN_STEP cfg)).

(** The detections of a frame, in the order of the rows. *)
Fixpoint parse_rows (data : list row) : result (list detection) :=
  match data with
  | [] => Ok []
  | r :: data' =>
      d ← parse_row r;
      ds ← parse_rows data';
      Ok (match d with Some d => d :: ds | None => ds end)
  end.

(** Pixel coordinates small enough for the centre of the box to be
    computed in binary64 without overflow. *)
Definition centred (d : detection) : bool :=
  small (x1 d + x2 d) && small (y1 d + y2 d).

Section Selector.
Variable args : arguments.
Variable class_ids : list Z.

(** The detection at index [i] as the specification words the choice: it
    qualifies, is strictly larger than every qualifying detection before
    it, and no qualifying detection after it is larger. *)
Definition spec_selected (ds : list detection) (i : nat) (d : detection) : Prop :=
  ds !! i = Some d
  /\ wanted args class_ids d = true
  /\ (forall j d', (j < i)%nat -> ds !! j = Some d' ->
        wanted args class_ids d' = true -> area d' < area d)
  /\ (forall j d', (i < j)%nat -> ds !! j = Some d' ->
        wanted args class_ids d' = true -> area d' <= area d).

(** The same with what the code adds: the box has a positive area. *)
Definition selected (ds : list detection) (i : nat) (d : detection) : Prop :=
  spec_selected ds i d /\ 0 < area d.

Variable names : gmap Z string.

(** What the loop over the rows has found after the detections [ds]: the
    selected detection with its centre, area and label, or nothing when
    no qualifying detection has a positive area. *)
Definition best_of (ds : list detection) (b : best) : Prop :=
  0 <= best_area b
  /\ match best_c b with
     | Some c =>
         exists i d, selected ds i d /\ centre d = Ok c
                     /\ best_area b = area d
                     /\ best_label b = Some (label names d)
     | None =>
         best_area b = 0
         /\ forall j d, ds !! j = Some d ->
              wanted args class_ids d = true -> area d <= 0
     end.

End Selector.

(** Section 4.2 of the specification:
    [err = (target.center - frame_size/2) / max(frame_size/2, 1)]. *)
Definition spec_compute_error (target_center : float) (frame_size : Z)
  : result float :=
  half_size ← half frame_size;
  d ← to_float (py_max (Flt half_size) (Int 1));
  fdiv (fsub target_center half_size) d.

(** Section 4.3 of the specification, steps 1 to 5, for one axis; the
    result is the stored angle and the commanded angle.  [round] is left
    open: the specification does not say which rounding it means. *)
Definition spec_step (round : num -> result Z)
    (current_angle : num) (min_angle max_angle : Z)
    (gain deadzone : float) (invert : bool) (err : float)
  : result (num * Z) :=
  let err := if invert then fopp err else err in
  let err := if fltb (fabs err) deadzone then f0_0 else err in
  range ← to_float (Int (max_angle - min_angle));
  current ← to_float current_angle;
  let new_angle := Flt (fadd current (fmul (fmul (fmul gain err) range) f0_5)) in
  let new_angle :=
    py_max (Int min_angle) (py_min (Int max_angle) new_angle) in
  commanded ← round new_angle;
  Ok (new_angle, commanded).

Section Loop.
Context {D : Type} `{ServoDriver D}.
Variable cfg : config.
Variable args : arguments.
Variable class_ids : list Z.
Variable names : gmap Z string.

(** The three ways an iteration ends without an exception: the target is
    followed, the pan axis scans, or nothing moves. *)
Inductive step_ok (f : frame) (st : vars) (w : world D)
    (st' : vars) (w' : world D) : Prop :=
| step_track cx cy b bx by_ pan tilt :
    observe args class_ids names f = Ok (cx, cy, b) ->
    best_c b = Some (bx, by_) ->
    track cfg args st bx by_ cx cy = Ok (pan, tilt) ->
    command cfg pan tilt w = (Ok (), w') ->
    st' = {| pan_angle := pan; tilt_angle := tilt;
             scan_direction := scan_direction st; frames_no_target := 0 |} ->
    step_ok f st w st' w'
| step_scan cx cy b pan dir :
    observe args class_ids names f = Ok (cx, cy, b) ->
    best_c b = None ->
    SCAN_START_FRAMES cfg <= frames_no_target st + 1 ->
    scan cfg st = Ok (pan, dir) ->
    command cfg pan (tilt_angle st) w = (Ok (), w') ->
    st' = {| pan_angle := pan; tilt_angle := tilt_angle st;
             scan_direction := dir;
             frames_no_target := frames_no_target st + 1 |} ->
    step_ok f st w st' w'
| step_hold cx cy b :
    observe args class_ids names f = Ok (cx, cy, b) ->
    best_c b = None ->
    frames_no_target st + 1 < SCAN_START_FRAMES cfg ->
    st' = {| pan_angle := pan_angle st; tilt_angle := tilt_angle st;
             scan_direction := scan_direction st;
             frames_no_target := frames_no_target st + 1 |} ->
    w' = w ->
    step_ok f st w st' w'.

(** The variables after each of a run of frames, up to the first
    exception. *)
Fixpoint states_after (fs : list frame) (st : vars) (w : world D) : list vars :=
  match fs with
  | [] => []
  | f :: fs' =>
      match frame_body cfg args class_ids names f st w with
      | (Ok st', w') => st' :: states_after fs' st' w'
      | (Raise _, _) => []
      end
  end.

End Loop.

(** A frame in which no target is selected. *)
Definition is_miss (args : arguments) (class_ids : list Z)
    (names : gmap Z string) (f : frame) : Prop :=
  exists cx cy b,
    observe args class_ids names f = Ok (cx, cy, b) /\ best_c b = None.

(** A frame in which a target is selected. *)
Definition is_hit (args : arguments) (class_ids : list Z)
    (names : gmap Z string) (f : frame) : Prop :=
  exists cx cy b c,
    observe args class_ids names f = Ok (cx, cy, b) /\ best_c b = Some c.

(** The variables after [n] more frames without a target and without a
    scan. *)
Definition bump (st : vars) (n : Z) : vars :=
  {| pan_angle := pan_angle st; tilt_angle := tilt_angle st;
     scan_direction := scan_direction st;
     frames_no_target := frames_no_target st + n |}.

Definition direction_ok (st : vars) : Prop :=
  scan_direction st = 1 \/ scan_direction st = -1.

(** The invariant of the loop. *)
Definition inv (cfg : config) (st : vars) : Prop :=
  within (PAN_RANGE cfg) (pan_angle st) = true
  /\ within (TILT_RANGE cfg) (tilt_angle st) = true
  /\ direction_ok st.

(** The last angle commanded on a port in a trace. *)
Fixpoint last_angle (port : Z) (tr : list event) : option Z :=
  match tr with
  | [] => None
  | e :: tr' =>
      match last_angle port tr' with
      | Some a => Some a
      | None =>
          match e with
          | SetAngle p a => if p =? port then Some a else None
          | CapRelease => None
          end
      end
  end.

(** The angles commanded on a port, in order. *)
Fixpoint angles_of (port : Z) (tr : list event) : list Z :=
  match tr with
  | [] => []
  | SetAngle p a :: tr' =>
      if p =? port then a :: angles_of port tr' else angles_of port tr'
  | CapRelease :: tr' => angles_of port tr'
  end.

(** What happened before the camera was released. *)
Fixpoint before_release (tr : list event) : list event :=
  match tr with
  | [] => []
  | CapRelease :: _ => []
  | e :: tr' => e :: before_release tr'
  end.

(** Both axes stand at their centre when the camera is released. *)
Definition centred_at_release (cfg : config) (tr : list event) : Prop :=
  In CapRelease tr ->
  last_angle (PAN_SERVO_PORT cfg) (before_release tr) = Some (PAN_CENTER cfg)
  /\ last_angle (TILT_SERVO_PORT cfg) (before_release tr)
     = Some (TILT_CENTER cfg).

Definition is_command (e : event) : bool :=
  match e with SetAngle _ _ => true | CapRelease => false end.

(** A configuration the specification wants refused. *)
Definition impossible (cfg : config) (class_ids : list Z) : Prop :=
  class_ids = []
  \/ snd (PAN_RANGE cfg) < fst (PAN_RANGE cfg)
  \/ snd (TILT_RANGE cfg) < fst (TILT_RANGE cfg).

(** [main] stops with [SystemExit] before anything is commanded and
    before any frame is looked at. *)
Definition rejected {D} `{ServoDriver D} (cfg : config) (args : arguments)
    (class_ids : list Z) (names : gmap Z string) : Prop :=
  forall ticks (w : world D),
    main cfg args class_ids names ticks w = (Raise SystemExit, w).

(** *** The scenarios of the specification *)

(** COCO class ids. *)
Definition person : Z := 0.
Definition cat : Z := 15.

Definition coco_names : gmap Z string :=
  {[ person := "person"%string; cat := "cat"%string ]}.

(** [--track cat,person] *)
Definition cat_person : list Z := [cat; person].

Definition f90 : float := Eval vm_compute in Z2F 90.
Definition f149 : float := Eval vm_compute in Z2F 149.
Definition f106_5 : float := Eval vm_compute in SFdiv prec emax (Z2F 213) (Z2F 2).
Definition f10_2 : float := Eval vm_compute in SFdiv prec emax (Z2F 102) (Z2F 10).
Definition f10_9 : float := Eval vm_compute in SFdiv prec emax (Z2F 109) (Z2F 10).

Definition frame_640x480 (rows : list row) : frame :=
  {| shape := (480, 640); boxes_data := Some rows |}.

(** A cat whose box is centred at [(480, 240)]: [err_x = 0.5], [err_y = 0]. *)
Definition cat_on_the_right : row :=
  [Z2F 470; Z2F 230; Z2F 490; Z2F 250; f0_5; Z2F cat].

(** A cat in a box from [x = 10.2] to [x = 10.9]: less than a pixel wide. *)
Definition thin_cat : row :=
  [f10_2; Z2F 5; f10_9; Z2F 50; f0_5; Z2F cat].

(** The box of [thin_cat] once its columns are converted. *)
Definition thin_box : detection :=
  {| x1 := 10; y1 := 5; x2 := 10; y2 := 50; cls_id := cat; conf := f0_5 |}.

(** A person of area 5000 and a cat of area 100. *)
Definition big_person : row :=
  [Z2F 0; Z2F 0; Z2F 100; Z2F 50; f0_5; Z2F person].

Definition small_cat : row :=
  [Z2F 200; Z2F 200; Z2F 210; Z2F 210; f0_5; Z2F cat].

Definition at_centre : vars :=
  {| pan_angle := Flt f90; tilt_angle := Flt f90;
     scan_direction := 1; frames_no_target := 0 |}.

(** Scanning to the right, one degree short of the bound. *)
Definition near_max : vars :=
  {| pan_angle := Flt f149; tilt_angle := Flt f90;
     scan_direction := 1; frames_no_target := 10 |}.

Definition mock_world : world MockServo :=
  {| servo := MockServo_init 4; trace := [] |}.


Definition no_detection : frame := frame_640x480 [].

Definition cat_frame : frame := frame_640x480 [cat_on_the_right].

(** A cat seen once on the right, then twelve frames without a detection:
    the pan axis follows, holds for nine frames and scans for three. *)
Definition sweep_ticks : list tick :=
  Frame cat_frame :: replicate 12 (Frame no_detection).

Definition after_sweep : vars :=
  Eval vm_compute in
  match fst (loop source_config default_arguments cat_person coco_names
               sweep_ticks at_centre mock_world) with
  | Ok st => st
  | Raise _ => at_centre
  end.

(** The variables after one scan iteration from [near_max]. *)
Definition after_first_scan : vars :=
  Eval vm_compute in
  match fst (frame_body source_config default_arguments cat_person coco_names
               no_detection near_max mock_world) with
  | Ok st => st
  | Raise _ => near_max
  end.

(** The source configuration with the pan bounds exchanged. *)
Definition reversed_pan : config :=
  {| PAN_SERVO_PORT := 0; TILT_SERVO_PORT := 1;
     PAN_CENTER := 90; TILT_CENTER := 90;
     PAN_RANGE := (150, 30); TILT_RANGE := (50, 130);
     DEADZONE := f0_05; SCAN_STEP := f2_0; SCAN_START_FRAMES := 10 |}.

End Spec.

Import Spec.

(* ================================================================== *)
(** ** Class names ([get_class_ids] of [cat_tracker.py]) *)

Module ClassIds.

Section GetClassIds.
(** [str.strip] and [str.lower]: whatever Python makes of them. *)
Variable strip : string -> string.
Variable lower : string -> string.

(** [model.names], a dictionary from class id to name, in the order of
    its items; a name may be [None]. *)
Abbreviation names_items := (list (Z * option string)).

(** [name and name.lower() == want] *)
Definition name_matches (want : string) (name : option string) : bool :=
  match name with
  | Some n => negb (String.eqb n EmptyString) && String.eqb (lower n) want
  | None => false
  end.

(** The inner loop: the id of the first item whose name matches, if any
    ([ids.append(idx); break]). *)
Fixpoint first_match (want : string) (items : names_items) : option Z :=
  match items with
  | [] => None
  | (idx, name) :: items' =>
      if name_matches want name then Some idx else first_match want items'
  end.

(** Lines 143-153. *)
Fixpoint get_class_ids (names : names_items) (class_names : list string)
  : list Z :=
  match class_names with
  | [] => []
  | want :: class_names' =>
      let want := lower (strip want) in
      match first_match want names with
      | Some idx => idx :: get_class_ids names class_names'
      | None => get_class_ids names class_names'
      end
  end.

End GetClassIds.

End ClassIds.

Import ClassIds.

(* ================================================================== *)
(** ** The servo test ([test_servo.py]) *)

Module ServoTest.

(** The module-level constants. *)
Record sweep_config := {
  PAN_PORT : Z;
  TILT_PORT : Z;
  SWEEP_PAN_RANGE : Z * Z;
  SWEEP_TILT_RANGE : Z * Z;
  CENTER_PAN : Z;
  CENTER_TILT : Z;
  STEP_DEG : Z
}.

Definition source_sweep : sweep_config := {|
  PAN_PORT := 0;
  TILT_PORT := 1;
  SWEEP_PAN_RANGE := (30, 150);
  SWEEP_TILT_RANGE := (50, 130);
  CENTER_PAN := 90;
  CENTER_TILT := 90;
  STEP_DEG := 5
|}.

(** The number of elements of [range(start, stop, step)]. *)
Definition range_length (start stop step : Z) : Z :=
  if 0 <? step then
    if start <? stop then (stop - start - 1) / step + 1 else 0
  else if step <? 0 then
    if stop <? start then (start - stop - 1) / (- step) + 1 else 0
  else 0.

(** [range(start, stop, step)]; a zero step raises. *)
Definition py_range (start stop step : Z) : result (list Z) :=
  if step =? 0 then Raise ValueError
  else Ok (map (fun i => start + Z.of_nat i * step)
             (seq 0 (Z.to_nat (range_length start stop step)))).

(** The angles of one axis in one cycle: up from the lower bound, then
    down from the upper one (lines 87-92 for pan, 94-99 for tilt). *)
Definition axis_sweep (range : Z * Z) (step : Z) : result (list Z) :=
  up ← py_range (fst range) (snd range + 1) step;
  down ← py_range (snd range) (fst range - 1) (- step);
  Ok (up ++ down).

(** The [set_angle] calls of one cycle of [while True], as (port, angle). *)
Definition cycle (c : sweep_config) : result (list (Z * Z)) :=
  pan ← axis_sweep (SWEEP_PAN_RANGE c) (STEP_DEG c);
  tilt ← axis_sweep (SWEEP_TILT_RANGE c) (STEP_DEG c);
  Ok (((fun a => (PAN_PORT c, a)) <$> pan)
        ++ ((fun a => (TILT_PORT c, a)) <$> tilt)).

(** Lines 101-102 and 107-108: both axes to their centre. *)
Definition centre_calls (c : sweep_config) : list (Z * Z) :=
  [(PAN_PORT c, CENTER_PAN c); (TILT_PORT c, CENTER_TILT c)].

(** [python3 test_servo.py --once]: one cycle, then the centre. *)
Definition once (c : sweep_config) : result (list (Z * Z)) :=
  calls ← cycle c;
  Ok (calls ++ centre_calls c).

(** A run of [n] whole cycles stopped by Ctrl+C after [k] more calls:
    the calls made so far, then the centre (lines 106-108). *)
Definition interrupted (c : sweep_config) (n k : nat) : result (list (Z * Z)) :=
  calls ← cycle c;
  Ok (concat (replicate n calls) ++ take k calls ++ centre_calls c).

(** The calls applied to a driver, in order, up to the first exception. *)
Fixpoint drive {D : Type} `{ServoDriver D} (calls : list (Z * Z)) (servo : D)
  : result D :=
  match calls with
  | [] => Ok servo
  | (port, angle) :: calls' =>
      servo' ← set_angle servo port (Int angle);
      drive calls' servo'
  end.

End ServoTest.

Import ServoTest.

(* ================================================================== *)
(** ** Further vocabulary *)

Module More.

(** A servo command of the loop that respects the range of its axis. *)
Definition in_range_command (cfg : config) (e : event) : Prop :=
  match e with
  | SetAngle p a =>
      (p = PAN_SERVO_PORT cfg
       /\ fst (PAN_RANGE cfg) <= a <= snd (PAN_RANGE cfg))
      \/ (p = TILT_SERVO_PORT cfg
          /\ fst (TILT_RANGE cfg) <= a <= snd (TILT_RANGE cfg))
  | CapRelease => False
  end.

(** A frame from which the centre and the target can be computed. *)
Definition observable (args : arguments) (class_ids : list Z)
    (names : gmap Z string) (t : tick) : Prop :=
  match t with
  | Frame f => is_ok (observe args class_ids names f) = true
  | Fault _ => False
  end.

(** Both ports of the configuration are ports of the mock driver. *)
Definition ports_ok (cfg : config) (servo : MockServo) : Prop :=
  is_ok (list_index (_angles servo) (PAN_SERVO_PORT cfg)) = true
  /\ is_ok (list_index (_angles servo) (TILT_SERVO_PORT cfg)) = true.

(** A detection without its confidence. *)
Definition box_and_class (d : detection) : Z * Z * Z * Z * Z :=
  (x1 d, y1 d, x2 d, y2 d, cls_id d).

(** The loop of lines 361-387 over rows already converted. *)
Fixpoint consider_all (args : arguments) (class_ids : list Z)
    (names : gmap Z string) (ds : list detection) (b : best) : result best :=
  match ds with
  | [] => Ok b
  | d :: ds' =>
      b' ← consider args class_ids names d b;
      consider_all args class_ids names ds' b'
  end.

(** The cat of [cat_on_the_right] as a tracker row of seven columns
    (with a track id), another confidence, and a row too short to hold a
    box before it. *)
Definition tracked_cat_rows : list row :=
  [[Z2F 1; Z2F 2; Z2F 3];
   [Z2F 470; Z2F 230; Z2F 490; Z2F 250; Z2F 7; f0_55; Z2F cat]].

(** A row the loop looks at: it has the four columns of a box. *)
Definition has_box (r : row) : bool := (4 <=? length r)%nat.

(** [names.items()] of a model with the COCO classes the tracker uses,
    and one class without a name. *)
Definition coco_items : list (Z * option string) :=
  [(0, Some "person"%string); (7, None); (15, Some "cat"%string);
   (16, Some "dog"%string)].

End More.

Import More.

(* ================================================================== *)
(** ** Facts about the numbers *)

Lemma digits2_pos_lower (m : positive) :
  2 ^ (Zpos (digits2_pos m) - 1) <= Zpos m.
Proof.
  induction m as [p IH | p IH |]; simpl digits2_pos.
  - rewrite Pos2Z.inj_succ.
    replace (Z.succ (Zpos (digits2_pos p)) - 1)
      with (Z.succ (Zpos (digits2_pos p) - 1)) by lia.
    rewrite Z.pow_succ_r by lia. lia.
  - rewrite Pos2Z.inj_succ.
    replace (Z.succ (Zpos (digits2_pos p)) - 1)
      with (Z.succ (Zpos (digits2_pos p) - 1)) by lia.
    rewrite Z.pow_succ_r by lia. lia.
  - simpl. lia.
Qed.

Lemma digits2_pos_iter_xO (m k : positive) :
  digits2_pos (Pos.iter xO m k) = (digits2_pos m + k)%positive.
Proof.
  induction k as [| k IH] using Pos.peano_ind.
  - simpl. lia.
  - rewrite Pos.iter_succ. simpl. rewrite IH. lia.
Qed.

Lemma Zpos_iter_xO (m k : positive) :
  Zpos (Pos.iter xO m k) = Zpos m * 2 ^ Zpos k.
Proof.
  induction k as [| k IH] using Pos.peano_ind.
  - simpl. lia.
  - rewrite Pos.iter_succ, Pos2Z.inj_xO, IH, Pos2Z.inj_succ, Z.pow_succ_r by lia.
    lia.
Qed.

Lemma binary_round_aux_canonical (s : bool) (m : positive) (e : Z) :
  Zpos (digits2_pos m) = 53 -> -1074 <= e <= 971 ->
  binary_round_aux prec emax s (Zpos m) e loc_Exact = S754_finite s m e.
Proof.
  intros Hd He.
  assert (Hs : shr_fexp prec emax (Zpos m) e loc_Exact
               = ({| shr_m := Zpos m; shr_r := false; shr_s := false |}, e)).
  { unfold shr_fexp, fexp, SpecFloat.emin, prec, emax. simpl Zdigits2. rewrite Hd.
    replace (Z.max (53 + e - 53) (3 - 1024 - 53) - e) with 0 by lia.
    reflexivity. }
  unfold binary_round_aux. rewrite Hs. simpl. rewrite Hs. simpl.
  destruct (Z.leb_spec e (emax - prec)) as [_ | Hgt]; [reflexivity |].
  unfold emax, prec in Hgt. lia.
Qed.

Lemma binary_round_small (s : bool) (m : positive) :
  Zpos m < 2 ^ 53 ->
  exists m' e', binary_round prec emax s m 0 = S754_finite s m' e'
                /\ -52 <= e' <= 0 /\ Zpos m' = Zpos m * 2 ^ (- e').
Proof.
  intros Hm.
  pose proof (digits2_pos_lower m) as Hlow.
  assert (Hd : Zpos (digits2_pos m) <= 53).
  { destruct (Z.le_gt_cases (Zpos (digits2_pos m)) 53) as [? | Hgt]; [done |].
    assert (2 ^ 53 <= 2 ^ (Zpos (digits2_pos m) - 1)) by (apply Z.pow_le_mono_r; lia).
    lia. }
  unfold binary_round, shl_align, fexp, SpecFloat.emin.
  replace (Z.max (Zpos (digits2_pos m) + 0 - prec) (3 - emax - prec) - 0)
    with (Zpos (digits2_pos m) - 53) by (unfold prec, emax; lia).
  destruct (Zpos (digits2_pos m) - 53) as [| p | p] eqn:Hk; [| lia |].
  - exists m, 0. split; [| split; [lia | simpl; lia]].
    apply binary_round_aux_canonical; lia.
  - replace (Z.max (Zpos (digits2_pos m) + 0 - prec) (3 - emax - prec))
      with (Zneg p) by (unfold prec, emax; lia).
    exists (Pos.iter xO m p), (Zneg p). split; [| split].
    + apply binary_round_aux_canonical; [| lia].
      rewrite digits2_pos_iter_xO. lia.
    + lia.
    + rewrite Zpos_iter_xO. reflexivity.
Qed.

Lemma Z2F_exact (z : Z) :
  Z.abs z < 2 ^ 53 ->
  to_float (Int z) = Ok (Z2F z) /\ Zcompare_float z (Z2F z) = Some Eq.
Proof.
  intros Hz. unfold to_float.
  destruct z as [| m | m]; [split; reflexivity | |].
  - destruct (binary_round_small false m) as (m' & e' & Hr & He & Hm); [lia |].
    unfold Z2F, binary_normalize. rewrite Hr. split; [reflexivity |].
    unfold Zcompare_float, cond_Zopp.
    destruct (Z.leb_spec 0 e').
    + replace e' with 0 in * by lia. f_equal. apply Z.compare_eq_iff. simpl in Hm. lia.
    + f_equal. apply Z.compare_eq_iff. lia.
  - destruct (binary_round_small true m) as (m' & e' & Hr & He & Hm); [lia |].
    unfold Z2F, binary_normalize. rewrite Hr. split; [reflexivity |].
    unfold Zcompare_float, cond_Zopp.
    destruct (Z.leb_spec 0 e').
    + replace e' with 0 in * by lia. f_equal. apply Z.compare_eq_iff. simpl in Hm. lia.
    + f_equal. apply Z.compare_eq_iff. lia.
Qed.
Lemma shr_1_nonneg (mrs : shr_record) : 0 <= shr_m mrs -> 0 <= shr_m (shr_1 mrs).
Proof.
  destruct mrs as [m r s]. simpl.
  destruct m as [| [p | p |] | [p | p |]]; simpl; lia.
Qed.

Lemma iter_pos_preserves {A} (P : A -> Prop) (f : A -> A) :
  (forall x, P x -> P (f x)) -> forall p x, P x -> P (SpecFloat.iter_pos f p x).
Proof.
  intros Hf. induction p as [p IH | p IH |]; simpl; auto.
Qed.

Lemma shr_fexp_nonneg (m e : Z) (l : location) :
  0 <= m -> 0 <= shr_m (fst (shr_fexp prec emax m e l)).
Proof.
  intros Hm. unfold shr_fexp, shr.
  assert (H0 : 0 <= shr_m (shr_record_of_loc m l))
    by (destruct l as [| []]; simpl; exact Hm).
  destruct (fexp prec emax (Zdigits2 m + e) - e); simpl; try exact H0.
  apply (iter_pos_preserves (fun mrs => 0 <= shr_m mrs)); [apply shr_1_nonneg | exact H0].
Qed.

Lemma round_nearest_even_nonneg (m : Z) (l : location) :
  0 <= m -> 0 <= round_nearest_even m l.
Proof.
  intros Hm. destruct l as [| []]; simpl; try lia.
  destruct (Z.even m); lia.
Qed.

Lemma binary_round_aux_not_nan (s : bool) (m e : Z) (l : location) :
  0 <= m -> is_nan (binary_round_aux prec emax s m e l) = false.
Proof.
  intros Hm. unfold binary_round_aux.
  pose proof (shr_fexp_nonneg m e l Hm) as H1.
  destruct (shr_fexp prec emax m e l) as [mrs' e'].
  simpl in H1.
  pose proof (shr_fexp_nonneg _ e' loc_Exact
                (round_nearest_even_nonneg _ (loc_of_shr_record mrs') H1)) as H2.
  destruct (shr_fexp prec emax _ e' loc_Exact) as [mrs'' e''].
  simpl in H2.
  destruct (shr_m mrs''); [reflexivity | | lia].
  destruct (e'' <=? emax - prec); reflexivity.
Qed.

Lemma binary_normalize_not_nan (m e : Z) (s : bool) :
  is_nan (binary_normalize prec emax m e s) = false.
Proof.
  destruct m; simpl; [reflexivity | |];
    unfold binary_round; destruct (shl_align _ _ _);
    apply binary_round_aux_not_nan; lia.
Qed.

Lemma fadd_not_nan (a b : float) :
  is_finite a = true -> is_nan b = false -> is_nan (fadd a b) = false.
Proof.
  destruct a as [sa | sa | | sa ma ea]; try discriminate; intros _;
    destruct b as [sb | sb | | sb mb eb]; try discriminate; intros _;
    try reflexivity.
  - destruct sa, sb; reflexivity.
  - apply binary_normalize_not_nan.
Qed.

Lemma fmul_not_nan (s : bool) (m : positive) (e : Z) (b : float) :
  is_nan b = false -> is_nan (fmul (S754_finite s m e) b) = false.
Proof.
  destruct b as [sb | sb | | sb mb eb]; try discriminate; intros _;
    try reflexivity.
  apply binary_round_aux_not_nan. lia.
Qed.

Lemma Zcompare_float_finite (f : float) :
  is_finite f = true ->
  exists K V, 0 < K /\ forall z, Zcompare_float z f = Some (z * K ?= V).
Proof.
  destruct f as [s | s | | s m e]; try discriminate; intros _.
  - exists 1, 0. split; [lia |]. intros z. simpl. by rewrite Z.mul_1_r.
  - unfold Zcompare_float. destruct (Z.leb_spec 0 e) as [He | He].
    + exists 1, (cond_Zopp s (Zpos m) * 2 ^ e). split; [lia |].
      intros z. by rewrite Z.mul_1_r.
    + exists (2 ^ (- e)), (cond_Zopp s (Zpos m)). split; [| done].
      apply Z.pow_pos_nonneg; lia.
Qed.

Lemma Zcompare_float_cut (f : float) : cut f.
Proof.
  destruct f as [s | s | | s m e] eqn:Hf.
  - destruct (Zcompare_float_finite (S754_zero s) eq_refl) as (K & V & HK & HV).
    by eapply cut_at.
  - destruct s; [apply cut_below | apply cut_above]; reflexivity.
  - apply cut_nan; reflexivity.
  - destruct (Zcompare_float_finite (S754_finite s m e) eq_refl) as (K & V & HK & HV).
    by eapply cut_at.
Qed.

Ltac by_compare :=
  repeat match goal with
    | H : context [?a ?= ?b] |- _ => destruct (Z.compare_spec a b); simpl in H
    | |- context [?a ?= ?b] => destruct (Z.compare_spec a b); simpl
    end;
  try discriminate; try reflexivity; try nia.

Ltac unfold_compare :=
  unfold within, clamp, py_max, py_min, py_le, py_lt, py_ge, py_gt, py_eq,
    num_compare in *; simpl in *.

Lemma clamp_within (range : Z * Z) (x : num) :
  fst range <= snd range -> within range (clamp range x) = true.
Proof.
  destruct range as [lo hi]. simpl. intros Hle.
  destruct x as [z | f].
  - do 3 (unfold_compare; by_compare).
  - destruct (Zcompare_float_cut f) as [Hc | Hc | Hc | K V HK Hc];
      do 3 (unfold_compare; rewrite ?Hc; simpl; by_compare).
Qed.

Lemma Zcompare_float_Eq (z : Z) (f : float) :
  Zcompare_float z f = Some Eq -> forall y, Zcompare_float y f = Some (y ?= z).
Proof.
  intros Hz y.
  destruct (Zcompare_float_cut f) as [Hc | Hc | Hc | K V HK Hc];
    rewrite Hc in Hz; try discriminate.
  rewrite Hc. f_equal. injection Hz as Hz. apply Z.compare_eq_iff in Hz.
  subst V. by_compare.
Qed.

Lemma Zcompare_float_not_nan (z : Z) (f : float) :
  is_nan f = false -> exists c, Zcompare_float z f = Some c.
Proof.
  destruct f as [s | s | | s m e]; try discriminate; intros _; simpl; eauto.
  destruct (0 <=? e); eauto.
Qed.

Lemma small_spec (z : Z) : small z = true <-> Z.abs z < 2 ^ 53.
Proof. unfold small. apply Z.ltb_lt. Qed.

Lemma Z2F_finite (z : Z) : small z = true -> is_finite (Z2F z) = true.
Proof.
  intros Hz%small_spec. destruct z as [| m | m]; [reflexivity | |].
  - destruct (binary_round_small false m) as (m' & e' & Hr & _); [lia |].
    unfold Z2F, binary_normalize. by rewrite Hr.
  - destruct (binary_round_small true m) as (m' & e' & Hr & _); [lia |].
    unfold Z2F, binary_normalize. by rewrite Hr.
Qed.

Lemma to_float_small (z : Z) : small z = true -> to_float (Int z) = Ok (Z2F z).
Proof. intros Hz%small_spec. by apply Z2F_exact. Qed.

Lemma Zcompare_float_Z2F (y z : Z) :
  small z = true -> Zcompare_float y (Z2F z) = Some (y ?= z).
Proof.
  intros Hz%small_spec. apply Zcompare_float_Eq. by apply Z2F_exact.
Qed.

Lemma small_between (lo z hi : Z) :
  small lo = true -> small hi = true -> lo <= z <= hi -> small z = true.
Proof. rewrite !small_spec. lia. Qed.

(** A number within small bounds converts to a finite float. *)
Lemma within_to_float (range : Z * Z) (x : num) :
  small (fst range) = true -> small (snd range) = true ->
  within range x = true ->
  exists a, to_float x = Ok a /\ is_finite a = true.
Proof.
  destruct range as [lo hi]. simpl. intros Hlo Hhi Hx.
  destruct x as [z | f].
  - assert (Hz : small z = true).
    { apply (small_between lo z hi); [done | done |]. unfold_compare. by_compare. }
    exists (Z2F z). split; [by apply to_float_small | by apply Z2F_finite].
  - exists f. split; [reflexivity |].
    destruct f as [s | [] | | s m e]; try reflexivity; by unfold_compare.
Qed.





(* ================================================================== *)
(** ** Facts about one iteration and about the loop *)

Section LoopFacts.
Context {D : Type} `{ServoDriver D}.
Variable cfg : config.
Variable args : arguments.
Variable class_ids : list Z.
Variable names : gmap Z string.

Lemma frame_body_Ok (f : frame) (st st' : vars) (w w' : world D) :
  frame_body cfg args class_ids names f st w = (Ok st', w') -> step_ok cfg args class_ids names f st w st' w'.
Proof.
  unfold frame_body, mbind, M_bind, lift.
  destruct (observe args class_ids names f) as [[[cx cy] b] | e] eqn:Hobs;
    [| discriminate].
  destruct (best_c b) as [[bx by_] |] eqn:Hb.
  - destruct (track cfg args st bx by_ cx cy) as [[pan tilt] | e] eqn:Ht;
      [| discriminate].
    destruct (command cfg pan tilt w) as [[[] | e] w1] eqn:Hc; [| discriminate].
    intros [= <- <-]. by eapply step_track.
  - destruct (Z.leb_spec (SCAN_START_FRAMES cfg) (frames_no_target st + 1)).
    + destruct (scan cfg st) as [[pan dir] | e] eqn:Hs; [| discriminate].
      destruct (command cfg pan (tilt_angle st) w) as [[[] | e] w1] eqn:Hc;
        [| discriminate].
      intros [= <- <-]. by eapply step_scan.
    + intros [= <- <-]. by eapply step_hold.
Qed.


Lemma well_formed_spec :
  well_formed cfg = true ->
  (fst (PAN_RANGE cfg) <= PAN_CENTER cfg <= snd (PAN_RANGE cfg))
  /\ (fst (TILT_RANGE cfg) <= TILT_CENTER cfg <= snd (TILT_RANGE cfg))
  /\ (small (fst (PAN_RANGE cfg)) = true /\ small (snd (PAN_RANGE cfg)) = true)
  /\ (small (fst (TILT_RANGE cfg)) = true /\ small (snd (TILT_RANGE cfg)) = true)
  /\ (small (snd (PAN_RANGE cfg) - fst (PAN_RANGE cfg)) = true
      /\ small (snd (TILT_RANGE cfg) - fst (TILT_RANGE cfg)) = true)
  /\ is_nan (SCAN_STEP cfg) = false.
Proof.
  unfold well_formed. rewrite !andb_true_iff, !Z.leb_le, negb_true_iff. tauto.
Qed.

Lemma well_formed_centres :
  well_formed cfg = true ->
  small (PAN_CENTER cfg) = true /\ small (TILT_CENTER cfg) = true.
Proof.
  intros (Hp & Ht & [Hpl Hph] & [Htl Hth] & _)%well_formed_spec.
  split.
  - by apply (small_between (fst (PAN_RANGE cfg)) _ (snd (PAN_RANGE cfg))).
  - by apply (small_between (fst (TILT_RANGE cfg)) _ (snd (TILT_RANGE cfg))).
Qed.

Lemma axis_move_within (angle err : num) (range : Z * Z) (angle' : num) :
  fst range <= snd range ->
  axis_move args angle err range = Ok angle' -> within range angle' = true.
Proof.
  intros Hle. unfold axis_move, mbind, result_bind.
  destruct (to_float err); [| discriminate].
  destruct (to_float (Int _)); [| discriminate].
  destruct (to_float angle); [| discriminate].
  intros [= <-]. by apply clamp_within.
Qed.

Lemma track_within (st : vars) (bx by_ cx cy : float) (pan tilt : num) :
  well_formed cfg = true ->
  track cfg args st bx by_ cx cy = Ok (pan, tilt) ->
  within (PAN_RANGE cfg) pan = true /\ within (TILT_RANGE cfg) tilt = true.
Proof.
  intros (Hp & Ht & _)%well_formed_spec. unfold track, mbind, result_bind.
  destruct (axis_error _ _ _ _); [| discriminate].
  destruct (axis_error _ _ _ _); [| discriminate].
  destruct (axis_move _ (pan_angle st) _ _) eqn:Hpan; [| discriminate].
  destruct (axis_move _ (tilt_angle st) _ _) eqn:Htilt; [| discriminate].
  intros [= <- <-]. split; eapply axis_move_within; try eassumption; lia.
Qed.

Lemma to_float_direction (dir : Z) :
  dir = 1 \/ dir = -1 ->
  exists s m e, to_float (Int dir) = Ok (S754_finite s m e).
Proof. intros [-> | ->]; vm_compute; eauto. Qed.

Lemma scan_within (st : vars) (pan : num) (dir : Z) :
  well_formed cfg = true ->
  within (PAN_RANGE cfg) (pan_angle st) = true ->
  direction_ok st ->
  scan cfg st = Ok (pan, dir) ->
  within (PAN_RANGE cfg) pan = true /\ (dir = 1 \/ dir = -1).
Proof.
  intros (Hcen & _ & [Hsl Hsh] & _ & _ & Hstep)%well_formed_spec Hin Hdir.
  unfold scan, mbind, result_bind.
  destruct (within_to_float _ _ Hsl Hsh Hin) as (a & -> & Ha).
  destruct (to_float_direction _ Hdir) as (s & m & e & ->).
  pose proof (fadd_not_nan a _ Ha (fmul_not_nan s m e _ Hstep)) as Hnan.
  set (new := fadd a (fmul (S754_finite s m e) (SCAN_STEP cfg))) in *.
  rewrite !to_float_small by done.
  destruct (PAN_RANGE cfg) as [lo hi]. simpl in *.
  assert (Hle : lo <= hi) by lia.
  destruct (py_ge (Flt new) (Int hi)) eqn:Hge.
  { intros [= <- <-]. split; [| by right].
    unfold_compare. rewrite !Zcompare_float_Z2F by done. by_compare. }
  destruct (py_le (Flt new) (Int lo)) eqn:Hlo.
  { intros [= <- <-]. split; [| by left].
    unfold_compare. rewrite !Zcompare_float_Z2F by done. by_compare. }
  intros [= <- <-]. split; [| exact Hdir].
  destruct (Zcompare_float_cut new) as [Hc | Hc | Hc | K V HK Hc].
  - destruct (Zcompare_float_not_nan 0 new Hnan) as [c Hc']. congruence.
  - unfold_compare. rewrite !Hc in *. done.
  - unfold_compare. rewrite !Hc in *. done.
  - unfold_compare. rewrite !Hc in *. simpl in *. by_compare.
Qed.

Lemma frame_body_inv (f : frame) (st st' : vars) (w w' : world D) :
  well_formed cfg = true -> inv cfg st ->
  frame_body cfg args class_ids names f st w = (Ok st', w') -> inv cfg st'.
Proof.
  intros Hwf (Hp & Ht & Hd) [] %frame_body_Ok; subst st'.
  - destruct (track_within _ _ _ _ _ _ _ Hwf H2). by split.
  - destruct (scan_within _ _ _ Hwf Hp Hd H3). by split.
  - by split.
Qed.

Lemma loop_inv (ticks : list tick) (st st' : vars) (w w' : world D) :
  well_formed cfg = true -> inv cfg st ->
  loop cfg args class_ids names ticks st w = (Ok st', w') -> inv cfg st'.
Proof.
  intros Hwf. revert st w.
  induction ticks as [| [f | e] ticks IH]; intros st w Hinv; simpl.
  - by intros [= <- <-].
  - unfold mbind, M_bind.
    destruct (frame_body cfg args class_ids names f st w) as [[st1 | e] w1] eqn:Hf; [| discriminate].
    apply IH. by eapply frame_body_inv.
  - discriminate.
Qed.

Lemma initial_vars_Ok :
  well_formed cfg = true ->
  initial_vars cfg
  = Ok {| pan_angle := Flt (Z2F (PAN_CENTER cfg));
          tilt_angle := Flt (Z2F (TILT_CENTER cfg));
          scan_direction := 1; frames_no_target := 0 |}.
Proof.
  intros [Hp Ht]%well_formed_centres. unfold initial_vars.
  by rewrite !to_float_small.
Qed.

Lemma initial_vars_inv (st : vars) :
  well_formed cfg = true -> initial_vars cfg = Ok st -> inv cfg st.
Proof.
  intros Hwf. rewrite (initial_vars_Ok Hwf). intros [= <-].
  destruct (well_formed_centres Hwf) as [Hp Ht].
  apply well_formed_spec in Hwf as (? & ? & _).
  split; [| split]; simpl; [| | by left];
    unfold_compare; rewrite !Zcompare_float_Z2F by done; by_compare.
Qed.

End LoopFacts.

Section Counter.
Context {D : Type} `{ServoDriver D}.
Variable cfg : config.
Variable args : arguments.
Variable class_ids : list Z.
Variable names : gmap Z string.

Lemma frame_body_hold (f : frame) (st : vars) (w : world D) cx cy b :
  observe args class_ids names f = Ok (cx, cy, b) ->
  best_c b = None ->
  frames_no_target st + 1 < SCAN_START_FRAMES cfg ->
  frame_body cfg args class_ids names f st w = (Ok (bump st 1), w).
Proof.
  intros Hobs Hb Hlt. unfold frame_body, mbind, M_bind, lift.
  rewrite Hobs, Hb.
  destruct (Z.leb_spec (SCAN_START_FRAMES cfg) (frames_no_target st + 1));
    [lia | reflexivity].
Qed.

Lemma frame_body_miss_counter (f : frame) (st st' : vars) (w w' : world D) cx cy b :
  observe args class_ids names f = Ok (cx, cy, b) ->
  best_c b = None ->
  frame_body cfg args class_ids names f st w = (Ok st', w') ->
  frames_no_target st' = frames_no_target st + 1.
Proof.
  intros Hobs Hb [] %frame_body_Ok; subst st'; try reflexivity.
  congruence.
Qed.

Lemma frame_body_hit_counter (f : frame) (st st' : vars) (w w' : world D) cx cy b c :
  observe args class_ids names f = Ok (cx, cy, b) ->
  best_c b = Some c ->
  frame_body cfg args class_ids names f st w = (Ok st', w') ->
  frames_no_target st' = 0.
Proof.
  intros Hobs Hb [] %frame_body_Ok; subst st'; try reflexivity; congruence.
Qed.

Lemma frame_body_miss_trace (f : frame) (st : vars) (w : world D) cx cy b :
  observe args class_ids names f = Ok (cx, cy, b) ->
  best_c b = None ->
  trace (snd (frame_body cfg args class_ids names f st w)) <> trace w ->
  SCAN_START_FRAMES cfg <= frames_no_target st + 1.
Proof.
  intros Hobs Hb Htr.
  destruct (Z.le_gt_cases (SCAN_START_FRAMES cfg) (frames_no_target st + 1))
    as [Hle | Hgt]; [exact Hle |].
  rewrite (frame_body_hold f st w cx cy b) in Htr by (done || lia). done.
Qed.

Lemma loop_app (ticks1 ticks2 : list tick) (st : vars) (w : world D) :
  loop cfg args class_ids names (ticks1 ++ ticks2) st w
  = match loop cfg args class_ids names ticks1 st w with
    | (Ok st1, w1) => loop cfg args class_ids names ticks2 st1 w1
    | (Raise e, w1) => (Raise e, w1)
    end.
Proof.
  revert st w. induction ticks1 as [| [f | e] ticks1 IH]; intros st w; simpl;
    [reflexivity | | reflexivity].
  unfold mbind, M_bind.
  destruct (frame_body cfg args class_ids names f st w) as [[st1 | e] w1];
    [apply IH | reflexivity].
Qed.

Lemma loop_misses (fs : list frame) (st : vars) (w : world D) :
  Forall (is_miss args class_ids names) fs ->
  frames_no_target st + Z.of_nat (length fs) < SCAN_START_FRAMES cfg ->
  loop cfg args class_ids names (Frame <$> fs) st w
  = (Ok (bump st (Z.of_nat (length fs))), w).
Proof.
  intros Hfs. revert st. induction Hfs as [| f fs (cx & cy & b & Hobs & Hb) _ IH];
    intros st Hlen.
  - simpl. destruct st; unfold bump; simpl. by rewrite Z.add_0_r.
  - simpl length in *. rewrite fmap_cons. simpl loop. unfold mbind, M_bind.
    rewrite (frame_body_hold f st w cx cy b) by (done || lia).
    rewrite IH by (simpl; lia).
    unfold bump; simpl. do 3 f_equal. lia.
Qed.

End Counter.

Section DeadZone.
Variable args : arguments.

Lemma raw_error_Ok (best_c center : float) :
  exists e, raw_error best_c center = Ok e.
Proof.
  unfold raw_error, py_max.
  destruct (py_gt (Int 1) (Flt center)) eqn:Hgt.
  - rewrite to_float_small by reflexivity. simpl. eauto.
  - destruct center; try discriminate; simpl; eauto.
Qed.


Lemma axis_error_Ok (cfg : config) (best_c center : float) (invert : bool) :
  exists err, axis_error cfg best_c center invert = Ok err
    /\ (err = Int 0 \/ exists f, err = Flt f).
Proof.
  unfold axis_error. destruct (raw_error_Ok best_c center) as [e ->]. simpl.
  destruct (fltb _ _); eauto.
Qed.

Lemma axis_move_Ok (angle err : num) (range : Z * Z) :
  small (fst range) = true -> small (snd range) = true ->
  small (snd range - fst range) = true ->
  within range angle = true ->
  (err = Int 0 \/ exists f, err = Flt f) ->
  exists angle', axis_move args angle err range = Ok angle'.
Proof.
  intros Hlo Hhi Hd Hin Herr. unfold axis_move.
  destruct (within_to_float _ _ Hlo Hhi Hin) as (a & -> & _).
  rewrite to_float_small by done.
  destruct Herr as [-> | [f ->]]; simpl; eauto.
Qed.

End DeadZone.

(* ================================================================== *)
(** ** Facts about the selection *)

Lemma half_Ok (z : Z) : small z = true -> exists c, half z = Ok c.
Proof.
  intros Hz. unfold half. rewrite to_float_small by done. simpl. eauto.
Qed.

Lemma centre_Ok (d : detection) : centred d = true -> exists c, centre d = Ok c.
Proof.
  unfold centred, centre. intros [Hx Hy]%andb_true_iff.
  destruct (half_Ok _ Hx) as [cx ->]. destruct (half_Ok _ Hy) as [cy ->].
  simpl. eauto.
Qed.

Section SelectorFacts.
Variable args : arguments.
Variable class_ids : list Z.
Variable names : gmap Z string.

Lemma best_of_bound (ds : list detection) (b : best) (j : nat) (d : detection) :
  best_of args class_ids names ds b ->
  ds !! j = Some d -> wanted args class_ids d = true ->
  area d <= best_area b.
Proof.
  intros [H0 Hb] Hj Hw. destruct (best_c b) as [c |].
  - destruct Hb as (i & d0 & [(Hi & _ & Hbefore & Hafter) _] & _ & -> & _).
    destruct (lt_eq_lt_dec j i) as [[Hlt | ->] | Hgt].
    + specialize (Hbefore j d Hlt Hj Hw). lia.
    + rewrite Hi in Hj. injection Hj as <-. lia.
    + exact (Hafter j d Hgt Hj Hw).
  - destruct Hb as [-> Hall]. eauto.
Qed.

Lemma best_of_nil : best_of args class_ids names [] no_best.
Proof. split; [done |]. simpl. split; [done |]. intros j d Hj. done. Qed.

Lemma consider_best_of (ds : list detection) (d : detection) (b : best) :
  best_of args class_ids names ds b -> centred d = true ->
  exists b', consider args class_ids names d b = Ok b'
             /\ best_of args class_ids names (ds ++ [d]) b'.
Proof.
  intros Hinv Hc. unfold consider.
  destruct (wanted args class_ids d) eqn:Hw; simpl;
    [destruct (Z.ltb_spec (best_area b) (area d)) as [Hlt | Hge] |].
  - destruct (centre_Ok d Hc) as [c Hcen]. rewrite Hcen. simpl.
    eexists. split; [reflexivity |].
    destruct Hinv as [H0 Hb]. split; [simpl; lia |]. simpl.
    exists (length ds), d. split; [| done].
    split; [| lia]. split; [| split; [done | split]].
    + by rewrite lookup_app_r, Nat.sub_diag.
    + intros j d' Hj Hd' Hw'. rewrite lookup_app_l in Hd' by done.
      pose proof (best_of_bound ds b j d' (conj H0 Hb) Hd' Hw'). lia.
    + intros j d' Hj Hd'. apply lookup_lt_Some in Hd'.
      rewrite length_app in Hd'. simpl in Hd'. lia.
  - exists b. split; [reflexivity |].
    destruct Hinv as [H0 Hb]. split; [done |].
    destruct (best_c b) as [c |] eqn:Hbc.
    + destruct Hb as (i & d0 & [(Hi & Hw0 & Hbefore & Hafter) Hpos] & Hcen & Ha & Hl).
      exists i, d0. split; [| done]. split; [| done].
      pose proof (lookup_lt_Some _ _ _ Hi) as Hlen.
      split; [| split; [done | split]].
      * by rewrite lookup_app_l.
      * intros j d' Hj Hd'. rewrite lookup_app_l in Hd' by lia. eauto.
      * intros j d' Hj Hd' Hw'.
        destruct (lt_dec j (length ds)) as [Hin | Hout].
        -- rewrite lookup_app_l in Hd' by done. eauto.
        -- rewrite lookup_app_r in Hd' by lia.
           destruct (j - length ds)%nat; [| done].
           injection Hd' as <-. lia.
    + destruct Hb as [Hz Hall]. split; [done |].
      intros j d' Hd' Hw'.
      destruct (lt_dec j (length ds)) as [Hin | Hout].
      * rewrite lookup_app_l in Hd' by done. eauto.
      * rewrite lookup_app_r in Hd' by lia.
        destruct (j - length ds)%nat; [| done].
        injection Hd' as <-. lia.
  - exists b. split; [reflexivity |].
    destruct Hinv as [H0 Hb]. split; [done |].
    destruct (best_c b) as [c |] eqn:Hbc.
    + destruct Hb as (i & d0 & [(Hi & Hw0 & Hbefore & Hafter) Hpos] & Hcen & Ha & Hl).
      exists i, d0. split; [| done]. split; [| done].
      pose proof (lookup_lt_Some _ _ _ Hi) as Hlen.
      split; [| split; [done | split]].
      * by rewrite lookup_app_l.
      * intros j d' Hj Hd'. rewrite lookup_app_l in Hd' by lia. eauto.
      * intros j d' Hj Hd' Hw'.
        destruct (lt_dec j (length ds)) as [Hin | Hout].
        -- rewrite lookup_app_l in Hd' by done. eauto.
        -- rewrite lookup_app_r in Hd' by lia.
           destruct (j - length ds)%nat; [| done].
           injection Hd' as <-. congruence.
    + destruct Hb as [Hz Hall]. split; [done |].
      intros j d' Hd' Hw'.
      destruct (lt_dec j (length ds)) as [Hin | Hout].
      * rewrite lookup_app_l in Hd' by done. eauto.
      * rewrite lookup_app_r in Hd' by lia.
        destruct (j - length ds)%nat; [| done].
        injection Hd' as <-. congruence.
Qed.

Lemma for_rows_best_of (data : list row) (ds pre : list detection) (b : best) :
  parse_rows data = Ok ds ->
  Forall (fun d => centred d = true) ds ->
  best_of args class_ids names pre b ->
  exists b', for_rows args class_ids names data b = Ok b'
             /\ best_of args class_ids names (pre ++ ds) b'.
Proof.
  revert ds pre b. induction data as [| r data IH]; intros ds pre b; simpl.
  - intros [= <-] _ Hinv. exists b. by rewrite app_nil_r.
  - unfold row_body, mbind, result_bind.
    destruct (parse_row r) as [[d |] |]; [| | discriminate].
    + destruct (parse_rows data) as [ds' |] eqn:Hds; [| discriminate].
      intros [= <-] Hall Hinv. apply Forall_cons in Hall as [Hd Hall].
      destruct (consider_best_of pre d b Hinv Hd) as (b1 & -> & Hinv1).
      destruct (IH ds' (pre ++ [d]) b1 eq_refl Hall Hinv1) as (b' & Hb' & Hinv').
      exists b'. split; [done |]. by rewrite <- app_assoc in Hinv'.
    + destruct (parse_rows data) as [ds' |] eqn:Hds; [| discriminate].
      intros [= <-] Hall Hinv. by apply IH.
Qed.

Lemma selected_unique (ds : list detection) (i j : nat) (d d' : detection) :
  selected args class_ids ds i d -> selected args class_ids ds j d' -> i = j.
Proof.
  intros [(Hi & Hw & Hbi & Hai) _] [(Hj & Hw' & Hbj & Haj) _].
  destruct (lt_eq_lt_dec i j) as [[Hlt | ->] | Hgt]; [| done |].
  - specialize (Hbj i d Hlt Hi Hw). specialize (Hai j d' Hlt Hj Hw'). lia.
  - specialize (Hbi j d' Hgt Hj Hw'). specialize (Haj i d Hgt Hi Hw). lia.
Qed.

End SelectorFacts.

(* ================================================================== *)
(** ** Facts about tracking, scanning and the traces *)

Lemma observe_Ok (args : arguments) (class_ids : list Z) (names : gmap Z string)
    (f : frame) (cx cy : float) (b : best) :
  observe args class_ids names f = Ok (cx, cy, b) ->
  half (snd (shape f)) = Ok cx /\ half (fst (shape f)) = Ok cy
  /\ select args class_ids names (boxes_data f) = Ok b.
Proof.
  unfold observe. destruct (shape f) as [h w]. simpl.
  destruct (half w); [| discriminate]. destruct (half h); [| discriminate].
  simpl. destruct (select _ _ _ _); [| discriminate].
  by intros [= <- <- <-].
Qed.

(** The error of the specification is the error of the code. *)
Lemma spec_compute_error_raw (best_c center : float) (size : Z) :
  half size = Ok center ->
  spec_compute_error best_c size = raw_error best_c center.
Proof. intros Hh. unfold spec_compute_error. by rewrite Hh. Qed.

(** The step of the specification, rounding as Python does, is the error
    handling, the move and the rounding of the code. *)
Lemma spec_step_axis (cfg : config) (args : arguments)
    (best_c center e : float) (angle : num) (range : Z * Z) (invert : bool)
    (angle' : num) (cmd : Z) :
  raw_error best_c center = Ok e ->
  spec_step py_round angle (fst range) (snd range) (gain args) (DEADZONE cfg)
    invert e = Ok (angle', cmd) ->
  exists err, axis_error cfg best_c center invert = Ok err
    /\ axis_move args angle err range = Ok angle'
    /\ py_round angle' = Ok cmd.
Proof.
  intros He. unfold spec_step, axis_error, axis_move, clamp. rewrite He.
  unfold mbind, result_bind.
  destruct (to_float (Int (snd range - fst range))) as [r |]; [| discriminate].
  destruct (to_float angle) as [a |] eqn:Ha; [| discriminate].
  destruct (fltb _ _).
  - destruct (py_round _) as [c |] eqn:Hr; [| discriminate].
    intros [= <- <-]. exists (Int 0). split; [done |].
    change (to_float (Int 0)) with (Ok f0_0). by rewrite Hr.
  - destruct (py_round _) as [c |] eqn:Hr; [| discriminate].
    intros [= <- <-]. eexists. split; [done |]. simpl. by rewrite Hr.
Qed.

Lemma command_Ok {D : Type} `{ServoDriver D} (cfg : config)
    (pan tilt : num) (cpan ctilt : Z) (w : world D) (d1 d2 : D) :
  py_round pan = Ok cpan -> py_round tilt = Ok ctilt ->
  set_angle (servo w) (PAN_SERVO_PORT cfg) (Int cpan) = Ok d1 ->
  set_angle d1 (TILT_SERVO_PORT cfg) (Int ctilt) = Ok d2 ->
  command cfg pan tilt w
  = (Ok (), {| servo := d2;
               trace := trace w ++ [SetAngle (PAN_SERVO_PORT cfg) cpan;
                                    SetAngle (TILT_SERVO_PORT cfg) ctilt] |}).
Proof.
  intros Hp Ht H1 H2. unfold command, mbind, M_bind, lift, servo_set_angle.
  rewrite Hp, H1, Ht. simpl. rewrite H2. by rewrite <- app_assoc.
Qed.

Lemma scan_direction_cases (cfg : config) (st : vars) (pan : num) (dir : Z) :
  scan cfg st = Ok (pan, dir) ->
  dir = -1 \/ dir = 1 \/ dir = scan_direction st.
Proof.
  unfold scan, mbind, result_bind.
  destruct (to_float (pan_angle st)); [| discriminate].
  destruct (to_float (Int (scan_direction st))); [| discriminate].
  destruct (py_ge _ _).
  { destruct (to_float _); [| discriminate]. intros [= <- <-]. by left. }
  destruct (py_le _ _).
  { destruct (to_float _); [| discriminate]. intros [= <- <-]. right. by left. }
  intros [= <- <-]. right. by right.
Qed.

Section Direction.
Context {D : Type} `{ServoDriver D}.
Variable cfg : config.
Variable args : arguments.
Variable class_ids : list Z.
Variable names : gmap Z string.

Lemma frame_body_direction (f : frame) (st st' : vars) (w w' : world D) :
  direction_ok st ->
  frame_body cfg args class_ids names f st w = (Ok st', w') ->
  direction_ok st'.
Proof.
  intros Hd [] %frame_body_Ok; subst st'; unfold direction_ok in *; simpl;
    try exact Hd.
  match goal with Hs : scan _ _ = _ |- _ =>
    destruct (scan_direction_cases _ _ _ _ Hs) as [-> | [-> | ->]] end;
    [by right | by left | exact Hd].
Qed.

Lemma loop_direction (ticks : list tick) (st st' : vars) (w w' : world D) :
  direction_ok st ->
  loop cfg args class_ids names ticks st w = (Ok st', w') ->
  direction_ok st'.
Proof.
  revert st w. induction ticks as [| [f | e] ticks IH]; intros st w Hd; simpl.
  - by intros [= <- <-].
  - unfold mbind, M_bind.
    destruct (frame_body cfg args class_ids names f st w) as [[st1 | e] w1] eqn:Hf;
      [| discriminate].
    apply IH. by eapply frame_body_direction.
  - discriminate.
Qed.

Lemma initial_vars_direction (st : vars) :
  initial_vars cfg = Ok st -> direction_ok st.
Proof.
  unfold initial_vars, mbind, result_bind.
  destruct (to_float _); [| discriminate].
  destruct (to_float _); [| discriminate].
  intros [= <-]. by left.
Qed.

(** What a scan iteration makes of the pan angle. *)
Lemma frame_body_scan (f : frame) (st st' : vars) (w w' : world D)
    (cx cy : float) (b : best) :
  observe args class_ids names f = Ok (cx, cy, b) ->
  best_c b = None ->
  SCAN_START_FRAMES cfg <= frames_no_target st + 1 ->
  frame_body cfg args class_ids names f st w = (Ok st', w') ->
  scan cfg st = Ok (pan_angle st', scan_direction st').
Proof.
  intros Hobs Hb Hle [] %frame_body_Ok; subst st'; simpl; try congruence.
  lia.
Qed.

End Direction.

Section Traces.
Context {D : Type} `{ServoDriver D}.
Variable cfg : config.
Variable args : arguments.
Variable class_ids : list Z.
Variable names : gmap Z string.

Lemma servo_set_angle_trace (port angle : Z) (w : world D) :
  trace (snd (servo_set_angle port angle w)) = trace w ++ [SetAngle port angle].
Proof.
  unfold servo_set_angle. by destruct (set_angle (servo w) port (Int angle)).
Qed.

Lemma servo_set_angle_servo (port angle : Z) (w : world D) :
  fst (servo_set_angle port angle w)
  = match set_angle (servo w) port (Int angle) with
    | Ok _ => Ok ()
    | Raise e => Raise e
    end.
Proof.
  unfold servo_set_angle. by destruct (set_angle (servo w) port (Int angle)).
Qed.

Lemma command_trace (pan tilt : num) (w : world D) :
  exists l, trace (snd (command cfg pan tilt w)) = trace w ++ l
            /\ forallb is_command l = true.
Proof.
  unfold command, mbind, M_bind, lift.
  destruct (py_round pan) as [p |]; [| exists []; by rewrite app_nil_r].
  pose proof (servo_set_angle_trace (PAN_SERVO_PORT cfg) p w) as H1.
  destruct (servo_set_angle (PAN_SERVO_PORT cfg) p w) as [[[] | e] w1];
    simpl in H1; [| by exists [SetAngle (PAN_SERVO_PORT cfg) p]].
  destruct (py_round tilt) as [t |];
    [| by exists [SetAngle (PAN_SERVO_PORT cfg) p]].
  pose proof (servo_set_angle_trace (TILT_SERVO_PORT cfg) t w1) as H2.
  destruct (servo_set_angle (TILT_SERVO_PORT cfg) t w1) as [r w2]. simpl in *.
  exists [SetAngle (PAN_SERVO_PORT cfg) p; SetAngle (TILT_SERVO_PORT cfg) t].
  split; [| done]. rewrite H2, H1. by rewrite <- app_assoc.
Qed.

Lemma frame_body_trace (f : frame) (st : vars) (w : world D) :
  exists l, trace (snd (frame_body cfg args class_ids names f st w)) = trace w ++ l
            /\ forallb is_command l = true.
Proof.
  unfold frame_body, mbind, M_bind, lift.
  destruct (observe args class_ids names f) as [[[cx cy] b] |];
    [| exists []; by rewrite app_nil_r].
  destruct (best_c b) as [[bx by_] |].
  - destruct (track cfg args st bx by_ cx cy) as [[pan tilt] |];
      [| exists []; by rewrite app_nil_r].
    destruct (command_trace pan tilt w) as (l & Hl & Hc).
    exists l. split; [| done].
    by destruct (command cfg pan tilt w) as [[[] |] w1].
  - destruct (SCAN_START_FRAMES cfg <=? frames_no_target st + 1);
      [| exists []; by rewrite app_nil_r].
    destruct (scan cfg st) as [[pan dir] |]; [| exists []; by rewrite app_nil_r].
    destruct (command_trace pan (tilt_angle st) w) as (l & Hl & Hc).
    exists l. split; [| done].
    by destruct (command cfg pan (tilt_angle st) w) as [[[] |] w1].
Qed.

Lemma loop_trace (ticks : list tick) (st : vars) (w : world D) :
  exists l, trace (snd (loop cfg args class_ids names ticks st w)) = trace w ++ l
            /\ forallb is_command l = true.
Proof.
  revert st w. induction ticks as [| [f | e] ticks IH]; intros st w; simpl;
    try (exists []; by rewrite app_nil_r).
  unfold mbind, M_bind.
  destruct (frame_body_trace f st w) as (l1 & Hl1 & Hc1).
  destruct (frame_body cfg args class_ids names f st w) as [[st1 | e] w1];
    simpl in Hl1; [| by exists l1].
  destruct (IH st1 w1) as (l2 & Hl2 & Hc2).
  exists (l1 ++ l2). split.
  - by rewrite Hl2, Hl1, <- app_assoc.
  - rewrite forallb_app. by rewrite Hc1, Hc2.
Qed.

Lemma try_finally_cleanup_trace {A} (body : M D A) (w : world D) :
  trace (snd (try_finally body (cleanup cfg) w))
  = trace (snd (body w))
    ++ CapRelease :: SetAngle (PAN_SERVO_PORT cfg) (PAN_CENTER cfg)
       :: (if is_ok (set_angle (servo (snd (body w))) (PAN_SERVO_PORT cfg)
                       (Int (PAN_CENTER cfg)))
           then [SetAngle (TILT_SERVO_PORT cfg) (TILT_CENTER cfg)] else []).
Proof.
  unfold try_finally. destruct (body w) as [r w1]. simpl.
  unfold cleanup, cap_release, mbind, M_bind, servo_set_angle. simpl.
  destruct (set_angle (servo w1) _ _) as [d |]; simpl.
  - destruct (set_angle d _ _); simpl; by rewrite <- !app_assoc.
  - by rewrite <- !app_assoc.
Qed.

Lemma main_started (ticks : list tick) (w : world D) (d1 d2 : D) (st0 : vars) :
  class_ids <> [] ->
  set_angle (servo w) (PAN_SERVO_PORT cfg) (Int (PAN_CENTER cfg)) = Ok d1 ->
  set_angle d1 (TILT_SERVO_PORT cfg) (Int (TILT_CENTER cfg)) = Ok d2 ->
  initial_vars cfg = Ok st0 ->
  main cfg args class_ids names ticks w
  = try_finally (loop cfg args class_ids names ticks st0) (cleanup cfg)
      {| servo := d2;
         trace := trace w ++ [SetAngle (PAN_SERVO_PORT cfg) (PAN_CENTER cfg);
                              SetAngle (TILT_SERVO_PORT cfg) (TILT_CENTER cfg)] |}.
Proof.
  intros Hne H1 H2 Hinit. unfold main.
  rewrite bool_decide_eq_false_2 by done.
  unfold mbind, M_bind, servo_set_angle, lift. rewrite H1. simpl. rewrite H2.
  rewrite Hinit. by rewrite <- app_assoc.
Qed.

End Traces.

(* ================================================================== *)
(** ** Facts about the servo drivers *)

(** The mock driver reads back the clamped, truncated angle it was given. *)
Lemma MockServo_set_get (self : MockServo) (port : Z) (angle : num)
    (a : Z) (i : nat) :
  py_int angle = Ok a ->
  list_index (_angles self) port = Ok i ->
  exists self', set_angle self port angle = Ok self'
    /\ get_angle self' port = Ok (Int (clamp_0_180 a)).
Proof.
  intros Ha Hi. simpl. unfold MockServo_set_angle, MockServo_get_angle.
  rewrite Ha, Hi. simpl. eexists. split; [reflexivity |]. simpl.
  unfold list_index in *. rewrite length_insert.
  destruct (_ && _) eqn:Hb; [| discriminate]. injection Hi as <-. simpl.
  rewrite list_lookup_insert_eq; [done |].
  apply andb_true_iff in Hb as [H0 H1].
  apply Z.leb_le in H0. apply Z.ltb_lt in H1. lia.
Qed.

Lemma truthy_nonzero (n : num) : truthy n = true -> py_eq n (Int 0) = false.
Proof.
  destruct n as [z | [s | s | | s m e]]; simpl; try done.
  - intros Hz%negb_true_iff%Z.eqb_neq. unfold py_eq, num_compare.
    destruct (Z.compare_spec z 0); [lia | reflexivity | reflexivity].
  - intros _. by destruct s.
  - intros _. unfold py_eq, num_compare, Zcompare_float.
    destruct (Z.leb_spec 0 e) as [He | He]; cbn [option_map].
    + assert (0 < 2 ^ e) by (apply Z.pow_pos_nonneg; lia).
      destruct (Z.compare_spec 0 (cond_Zopp s (Z.pos m) * 2 ^ e)) as [Heq | |];
        [| reflexivity | reflexivity].
      destruct s; simpl in Heq; nia.
    + destruct (Z.compare_spec (0 * 2 ^ (- e)) (cond_Zopp s (Z.pos m))) as [Heq | |];
        [| reflexivity | reflexivity].
      destruct s; simpl in Heq; lia.
Qed.

(* ================================================================== *)
(** ** The properties of the specification *)

(** C1: for every axis configuration with [min_angle <= center_angle <=
    max_angle] and every sequence of frames, tracked or scanned, the pan
    and tilt angles held by the loop are within their ranges after each
    iteration, starting from the centre. *)
Theorem angles_stay_in_range {D : Type} `{ServoDriver D}
    (cfg : config) (args : arguments) (class_ids : list Z)
    (names : gmap Z string) (ticks : list tick)
    (st0 st : vars) (w w' : world D) :
  well_formed cfg = true ->
  initial_vars cfg = Ok st0 ->
  loop cfg args class_ids names ticks st0 w = (Ok st, w') ->
  within (PAN_RANGE cfg) (pan_angle st) = true
  /\ within (TILT_RANGE cfg) (tilt_angle st) = true.
Proof.
  intros Hwf Hinit Hloop.
  destruct (loop_inv cfg args class_ids names ticks st0 st w w' Hwf) as (Hp & Ht & _);
    [by apply initial_vars_inv | exact Hloop | by split].
Qed.

Lemma angles_stay_in_range_witness :
  within (PAN_RANGE source_config) (pan_angle after_sweep) = true
  /\ within (TILT_RANGE source_config) (tilt_angle after_sweep) = true.
Proof.
  apply (angles_stay_in_range source_config default_arguments cat_person
           coco_names sweep_ticks at_centre after_sweep mock_world
           (snd (loop source_config default_arguments cat_person coco_names
                   sweep_ticks at_centre mock_world)));
    vm_compute; reflexivity.
Defined.

(** C2 (as the code has it): on a frame with a selected target the
    iteration takes, for each axis, the error of section 4.2 of the
    specification and the step of section 4.3 with the rounding of Python
    (to nearest, a tie to the even neighbour): it commands the rounded
    angles, pan first, and stores the unrounded ones.  For the pan axis
    [30..150] with gain [0.55], dead zone [0.05], at [90] and with error
    [0.5], the stored angle is [106.5] and the command is [106]. *)
Theorem tracking_step_follows_the_control_law {D : Type} `{ServoDriver D}
    (cfg : config) (args : arguments) (class_ids : list Z)
    (names : gmap Z string) (f : frame) (st : vars) (w : world D)
    (center_x center_y best_cx best_cy err_x err_y : float) (b : best)
    (pan tilt : num) (cpan ctilt : Z) (d1 d2 : D) :
  observe args class_ids names f = Ok (center_x, center_y, b) ->
  best_c b = Some (best_cx, best_cy) ->
  spec_compute_error best_cx (snd (shape f)) = Ok err_x ->
  spec_compute_error best_cy (fst (shape f)) = Ok err_y ->
  spec_step py_round (pan_angle st) (fst (PAN_RANGE cfg)) (snd (PAN_RANGE cfg))
    (gain args) (DEADZONE cfg) (invert_pan args) err_x = Ok (pan, cpan) ->
  spec_step py_round (tilt_angle st) (fst (TILT_RANGE cfg)) (snd (TILT_RANGE cfg))
    (gain args) (DEADZONE cfg) (invert_tilt args) err_y = Ok (tilt, ctilt) ->
  set_angle (servo w) (PAN_SERVO_PORT cfg) (Int cpan) = Ok d1 ->
  set_angle d1 (TILT_SERVO_PORT cfg) (Int ctilt) = Ok d2 ->
  frame_body cfg args class_ids names f st w
  = (Ok {| pan_angle := pan; tilt_angle := tilt;
           scan_direction := scan_direction st; frames_no_target := 0 |},
     {| servo := d2;
        trace := trace w ++ [SetAngle (PAN_SERVO_PORT cfg) cpan;
                             SetAngle (TILT_SERVO_PORT cfg) ctilt] |})
  /\ spec_step py_round (Flt f90) 30 150 f0_55 f0_05 false f0_5
     = Ok (Flt f106_5, 106).
Proof.
  intros Hobs Hb Hex Hey Hpan Htilt H1 H2. split; [| vm_compute; reflexivity].
  destruct (observe_Ok _ _ _ _ _ _ _ Hobs) as (Hcx & Hcy & _).
  rewrite (spec_compute_error_raw _ _ _ Hcx) in Hex.
  rewrite (spec_compute_error_raw _ _ _ Hcy) in Hey.
  destruct (spec_step_axis cfg args _ _ _ _ (PAN_RANGE cfg) _ _ _ Hex Hpan)
    as (ex & Hax & Hmx & Hrx).
  destruct (spec_step_axis cfg args _ _ _ _ (TILT_RANGE cfg) _ _ _ Hey Htilt)
    as (ey & Hay & Hmy & Hry).
  unfold frame_body, mbind, M_bind, lift. rewrite Hobs, Hb.
  unfold track. rewrite Hax, Hay. simpl. rewrite Hmx, Hmy. simpl.
  by rewrite (command_Ok cfg pan tilt cpan ctilt w d1 d2).
Qed.

Lemma tracking_step_follows_the_control_law_witness :
  frame_body source_config default_arguments cat_person coco_names
    cat_frame at_centre mock_world
  = (Ok {| pan_angle := Flt f106_5; tilt_angle := Flt f90;
           scan_direction := 1; frames_no_target := 0 |},
     {| servo := {| _angles := [106; 90; 90; 90] |};
        trace := [SetAngle 0 106; SetAngle 1 90] |}).
Proof.
  apply (tracking_step_follows_the_control_law source_config
           default_arguments cat_person coco_names cat_frame at_centre
           mock_world (Z2F 320) (Z2F 240) (Z2F 480) (Z2F 240) f0_5 f0_0
           {| best_c := Some (Z2F 480, Z2F 240); best_area := 400;
              best_label := Some "cat"%string |}
           (Flt f106_5) (Flt f90) 106 90
           {| _angles := [106; 90; 90; 90] |}
           {| _angles := [106; 90; 90; 90] |});
    vm_compute; reflexivity.
Defined.

(** C2, the scenario as the specification states it: the command is not
    [107]. *)
Lemma scenario_command_is_not_107 :
  ~ (exists st' w',
        frame_body source_config default_arguments cat_person coco_names
          cat_frame at_centre mock_world = (Ok st', w')
        /\ pan_angle st' = Flt f106_5
        /\ last_angle (PAN_SERVO_PORT source_config) (trace w') = Some 107).
Proof.
  intros (st' & w' & Hf & _ & Hcmd).
  vm_compute in Hf. injection Hf as <- <-. vm_compute in Hcmd. discriminate.
Qed.

(** C3 (as the code has it): when the rows of a frame convert to the
    detections [ds], the selection returns; a target it returns is the
    centre, area and label of the one detection that qualifies, has a
    positive area, is strictly larger than every qualifying detection
    before it and is not exceeded by any after it; and it returns no target
    exactly when no qualifying detection has a positive area. *)
Theorem select_takes_the_first_largest (args : arguments)
    (class_ids : list Z) (names : gmap Z string)
    (data : list row) (ds : list detection) :
  parse_rows data = Ok ds ->
  Forall (fun d => centred d = true) ds ->
  exists b,
    select args class_ids names (Some data) = Ok b
    /\ (forall c, best_c b = Some c ->
          exists i d,
            selected args class_ids ds i d
            /\ centre d = Ok c
            /\ best_area b = area d
            /\ best_label b = Some (label names d)
            /\ forall j d', selected args class_ids ds j d' -> j = i)
    /\ (best_c b = None <->
        forall j d, ds !! j = Some d ->
          wanted args class_ids d = true -> area d <= 0).
Proof.
  intros Hds Hall.
  destruct (for_rows_best_of args class_ids names data ds [] no_best Hds Hall
              (best_of_nil args class_ids names)) as (b & Hb & [H0 Hinv]).
  simpl in Hinv. exists b. split; [exact Hb |]. split.
  - intros c Hc. rewrite Hc in Hinv.
    destruct Hinv as (i & d & Hsel & Hcen & Ha & Hl).
    exists i, d. repeat (split; [done |]).
    intros j d' Hsel'. by eapply selected_unique.
  - destruct (best_c b) as [c |].
    + split; [done |]. intros Hnone.
      destruct Hinv as (i & d & [(Hi & Hw & _) Hpos] & _).
      specialize (Hnone i d Hi Hw). lia.
    + split; [| done]. intros _. by destruct Hinv.
Qed.

Lemma select_takes_the_first_largest_witness :
  exists b,
    select default_arguments [cat] coco_names (Some [big_person; small_cat])
    = Ok b
    /\ best_area b = 100 /\ best_label b = Some "cat"%string.
Proof.
  destruct (select_takes_the_first_largest default_arguments [cat] coco_names
              [big_person; small_cat]
              [ {| x1 := 0; y1 := 0; x2 := 100; y2 := 50;
                   cls_id := person; conf := f0_5 |};
                {| x1 := 200; y1 := 200; x2 := 210; y2 := 210;
                   cls_id := cat; conf := f0_5 |} ])
    as (b & Hb & _).
  - vm_compute. reflexivity.
  - repeat constructor.
  - exists b. split; [exact Hb |].
    vm_compute in Hb. injection Hb as <-. split; reflexivity.
Defined.

(** C3, as the specification states it: a qualifying detection that no
    other exceeds is not always returned. *)
Lemma thin_box_is_not_selected :
  ~ (forall data ds b i d,
        parse_rows data = Ok ds ->
        select default_arguments cat_person coco_names (Some data) = Ok b ->
        spec_selected default_arguments cat_person ds i d ->
        exists c, best_c b = Some c /\ centre d = Ok c).
Proof.
  intros Hclaim.
  destruct (Hclaim [thin_cat] [thin_box] no_best 0%nat thin_box)
    as (c & Hc & _); [vm_compute; reflexivity | vm_compute; reflexivity | |].
  - split; [reflexivity |]. split; [vm_compute; reflexivity |].
    split; intros j d' Hj Hd'; [lia |].
    destruct j; [lia | discriminate].
  - discriminate.
Qed.

(** C4: on a scan iteration, with [pan_angle + scan_direction * SCAN_STEP]
    at or above the upper pan bound the new pan angle is exactly that bound
    and the direction becomes [-1] in that iteration; at or below the lower
    bound it is exactly that bound and the direction becomes [+1];
    otherwise the sum is kept and the direction with it.  From [149],
    direction [+1], step [2] and bound [150], twenty scan iterations give
    [150] with direction [-1] and then descend by two degrees each.  The
    direction is always [+1] or [-1]. *)
Theorem scan_turns_at_the_bounds {D : Type} `{ServoDriver D}
    (cfg : config) (args : arguments) (class_ids : list Z)
    (names : gmap Z string) :
  fst (PAN_RANGE cfg) < snd (PAN_RANGE cfg) ->
  small (fst (PAN_RANGE cfg)) = true ->
  small (snd (PAN_RANGE cfg)) = true ->
  (forall f st st' (w w' : world D) a d,
      is_miss args class_ids names f ->
      SCAN_START_FRAMES cfg <= frames_no_target st + 1 ->
      to_float (pan_angle st) = Ok a ->
      to_float (Int (scan_direction st)) = Ok d ->
      frame_body cfg args class_ids names f st w = (Ok st', w') ->
      let new_pan := Flt (fadd a (fmul d (SCAN_STEP cfg))) in
      (py_ge new_pan (Int (snd (PAN_RANGE cfg))) = true ->
       pan_angle st' = Flt (Z2F (snd (PAN_RANGE cfg)))
       /\ py_eq (pan_angle st') (Int (snd (PAN_RANGE cfg))) = true
       /\ scan_direction st' = -1)
      /\ (py_le new_pan (Int (fst (PAN_RANGE cfg))) = true ->
          pan_angle st' = Flt (Z2F (fst (PAN_RANGE cfg)))
          /\ py_eq (pan_angle st') (Int (fst (PAN_RANGE cfg))) = true
          /\ scan_direction st' = 1)
      /\ (py_ge new_pan (Int (snd (PAN_RANGE cfg))) = false ->
          py_le new_pan (Int (fst (PAN_RANGE cfg))) = false ->
          pan_angle st' = new_pan
          /\ scan_direction st' = scan_direction st))
  /\ (forall ticks st0 st (w w' : world D),
        initial_vars cfg = Ok st0 ->
        loop cfg args class_ids names ticks st0 w = (Ok st, w') ->
        scan_direction st = 1 \/ scan_direction st = -1)
  /\ (fun st => (pan_angle st, scan_direction st))
     <$> states_after source_config default_arguments cat_person coco_names
           (replicate 20 no_detection) near_max mock_world
     = (fun z => (Flt (Z2F z), -1))
       <$> [150; 148; 146; 144; 142; 140; 138; 136; 134; 132;
            130; 128; 126; 124; 122; 120; 118; 116; 114; 112].
Proof.
  intros Hlt Hlo Hhi. split; [| split].
  - intros f st st' w w' a d (cx & cy & b & Hobs & Hb) Hle Ha Hd Hf new_pan.
    pose proof (frame_body_scan cfg args class_ids names f st st' w w' cx cy b
                  Hobs Hb Hle Hf) as Hscan.
    unfold scan, mbind, result_bind in Hscan.
    rewrite Ha, Hd in Hscan. cbv beta iota in Hscan.
    fold new_pan in Hscan. rewrite !to_float_small in Hscan by done.
    cbv beta iota in Hscan.
    assert (Hcmp : forall z, small z = true ->
                     py_eq (Flt (Z2F z)) (Int z) = true).
    { intros z Hz. unfold py_eq, num_compare.
      rewrite Zcompare_float_Z2F by done. cbn [option_map].
      by rewrite Z.compare_refl. }
    destruct (py_ge new_pan (Int (snd (PAN_RANGE cfg)))) eqn:Hge.
    + injection Hscan as <- <-. split; [| split]; [| | done].
      * intros _. split; [done |]. split; [| done]. by apply Hcmp.
      * intros Hle'. exfalso.
        subst new_pan.
        set (x := fadd a (fmul d (SCAN_STEP cfg))) in *. clearbody x.
        destruct (PAN_RANGE cfg) as [lo hi]. cbn [fst snd] in *.
        destruct (Zcompare_float_cut x) as [Hc | Hc | Hc | K V HK Hc];
          unfold py_ge, py_le, num_compare in Hge, Hle'; rewrite !Hc in Hge, Hle';
          cbn [option_map CompOpp] in Hge, Hle'; try discriminate.
        by_compare.
    + destruct (py_le new_pan (Int (fst (PAN_RANGE cfg)))) eqn:Hle'.
      * injection Hscan as <- <-. split; [done |]. split; [| done].
        intros _. split; [done |]. split; [| done]. by apply Hcmp.
      * injection Hscan as <- <-. split; [done |]. split; [done |]. done.
  - intros ticks st0 st w w' Hinit Hloop.
    eapply (loop_direction cfg args class_ids names); [| exact Hloop].
    by eapply initial_vars_direction.
  - vm_compute. reflexivity.
Qed.

Lemma scan_turns_at_the_bounds_witness :
  pan_angle after_first_scan = Flt (Z2F 150)
  /\ py_eq (pan_angle after_first_scan) (Int 150) = true
  /\ scan_direction after_first_scan = -1.
Proof.
  destruct (scan_turns_at_the_bounds (D:=MockServo) source_config
              default_arguments cat_person coco_names)
    as (Htick & _ & _); [vm_compute; reflexivity .. |].
  assert (Hmiss : is_miss default_arguments cat_person coco_names no_detection).
  { eexists _, _, _. vm_compute. split; reflexivity. }
  refine (proj1 (Htick no_detection near_max after_first_scan mock_world
                   (snd (frame_body source_config default_arguments cat_person
                           coco_names no_detection near_max mock_world))
                   f149 (Z2F 1) Hmiss _ _ _ _) _);
    vm_compute; (reflexivity || discriminate).
Defined.

(** C5: the scan never moves the servo while the miss counter is below
    [SCAN_START_FRAMES]; the counter grows by one on each frame without a
    target and is zero after a frame with one, whatever it was; fewer than
    [SCAN_START_FRAMES] frames without a target, then a target, command
    nothing before the target and leave the counter at zero. *)
Theorem scan_waits_for_the_threshold {D : Type} `{ServoDriver D}
    (cfg : config) (args : arguments) (class_ids : list Z)
    (names : gmap Z string) :
  (forall f st (w : world D),
      is_miss args class_ids names f ->
      trace (snd (frame_body cfg args class_ids names f st w)) <> trace w ->
      SCAN_START_FRAMES cfg <= frames_no_target st + 1)
  /\ (forall f st st' (w w' : world D),
        is_miss args class_ids names f ->
        frame_body cfg args class_ids names f st w = (Ok st', w') ->
        frames_no_target st' = frames_no_target st + 1)
  /\ (forall f st st' (w w' : world D),
        is_hit args class_ids names f ->
        frame_body cfg args class_ids names f st w = (Ok st', w') ->
        frames_no_target st' = 0)
  /\ (forall misses hit st st' (w w' : world D),
        Forall (is_miss args class_ids names) misses ->
        is_hit args class_ids names hit ->
        frames_no_target st = 0 ->
        Z.of_nat (length misses) < SCAN_START_FRAMES cfg ->
        loop cfg args class_ids names (Frame <$> misses) st w
        = (Ok (bump st (Z.of_nat (length misses))), w)
        /\ (loop cfg args class_ids names (Frame <$> misses ++ [hit]) st w
            = (Ok st', w') ->
            frames_no_target st' = 0)).
Proof.
  repeat split.
  - intros f st w (cx & cy & b & Hobs & Hb). by eapply frame_body_miss_trace.
  - intros f st st' w w' (cx & cy & b & Hobs & Hb). by eapply frame_body_miss_counter.
  - intros f st st' w w' (cx & cy & b & c & Hobs & Hb). by eapply frame_body_hit_counter.
  - apply loop_misses; [done | lia].
  - destruct H1 as (cx & cy & b & c & Hobs & Hb).
    rewrite fmap_app, loop_app.
    rewrite loop_misses by (done || lia). simpl. unfold mbind, M_bind.
    destruct (frame_body _ _ _ _ hit _ w) as [[st1 | e] w1] eqn:Hf; [| discriminate].
    intros [= <- <-]. by eapply frame_body_hit_counter.
Qed.

Lemma scan_waits_for_the_threshold_witness :
  loop source_config default_arguments cat_person coco_names
    (Frame <$> replicate 9 no_detection) at_centre mock_world
  = (Ok (bump at_centre 9), mock_world)
  /\ frames_no_target
       (bump at_centre 9) + 1 <= SCAN_START_FRAMES source_config.
Proof.
  destruct (scan_waits_for_the_threshold (D:=MockServo) source_config
              default_arguments cat_person coco_names) as (_ & _ & _ & Hrun).
  assert (Hmiss : is_miss default_arguments cat_person coco_names no_detection).
  { eexists _, _, _. vm_compute. split; reflexivity. }
  assert (Hhit : is_hit default_arguments cat_person coco_names cat_frame).
  { eexists _, _, _, _. vm_compute. split; reflexivity. }
  split; [| vm_compute; discriminate].
  apply (Hrun (replicate 9 no_detection) cat_frame at_centre at_centre
           mock_world mock_world).
  - repeat constructor; exact Hmiss.
  - exact Hhit.
  - reflexivity.
  - vm_compute. reflexivity.
Defined.



(** C7 (as the code has it): once the loop has been entered, however it
    ends (the camera stops, a key is pressed, or an exception is raised in
    an iteration), [main] releases the camera and then commands the pan
    axis and, if that command is accepted, the tilt axis to their centres;
    nothing but servo commands comes before the release. *)
Theorem cleanup_releases_then_recentres {D : Type} `{ServoDriver D}
    (cfg : config) (args : arguments) (class_ids : list Z)
    (names : gmap Z string) (ticks : list tick) (w : world D)
    (d1 d2 : D) (st0 : vars) :
  class_ids <> [] ->
  set_angle (servo w) (PAN_SERVO_PORT cfg) (Int (PAN_CENTER cfg)) = Ok d1 ->
  set_angle d1 (TILT_SERVO_PORT cfg) (Int (TILT_CENTER cfg)) = Ok d2 ->
  initial_vars cfg = Ok st0 ->
  let started :=
    {| servo := d2;
       trace := trace w ++ [SetAngle (PAN_SERVO_PORT cfg) (PAN_CENTER cfg);
                            SetAngle (TILT_SERVO_PORT cfg) (TILT_CENTER cfg)] |} in
  let ended := snd (loop cfg args class_ids names ticks st0 started) in
  trace (snd (main cfg args class_ids names ticks w))
  = trace ended
    ++ CapRelease :: SetAngle (PAN_SERVO_PORT cfg) (PAN_CENTER cfg)
       :: (if is_ok (set_angle (servo ended) (PAN_SERVO_PORT cfg)
                       (Int (PAN_CENTER cfg)))
           then [SetAngle (TILT_SERVO_PORT cfg) (TILT_CENTER cfg)] else [])
  /\ exists commands,
       trace ended = trace started ++ commands
       /\ forallb is_command commands = true.
Proof.
  intros Hne H1 H2 Hinit started ended. split.
  - rewrite (main_started cfg args class_ids names ticks w d1 d2 st0) by done.
    apply try_finally_cleanup_trace.
  - apply loop_trace.
Qed.

Lemma cleanup_releases_then_recentres_witness :
  trace (snd (main source_config default_arguments cat_person coco_names
                [Frame cat_frame; Fault KeyboardInterrupt] mock_world))
  = [SetAngle 0 90; SetAngle 1 90; SetAngle 0 106; SetAngle 1 90;
     CapRelease; SetAngle 0 90; SetAngle 1 90].
Proof.
  destruct (cleanup_releases_then_recentres source_config default_arguments
              cat_person coco_names [Frame cat_frame; Fault KeyboardInterrupt]
              mock_world (MockServo_init 4) (MockServo_init 4) at_centre)
    as [Htrace _];
    [discriminate | vm_compute; reflexivity .. |].
  etransitivity; [exact Htrace |]. vm_compute. reflexivity.
Defined.

(** C7, as the specification states it: the axes are not back at their
    centres when the camera is released. *)
Lemma camera_is_released_before_recentring :
  ~ centred_at_release source_config
      (trace (snd (main source_config default_arguments cat_person coco_names
                     [Frame cat_frame] mock_world))).
Proof.
  intros Hc. destruct Hc as [Hpan _].
  - vm_compute. tauto.
  - vm_compute in Hpan. discriminate.
Qed.

(** C8 (as the code has it): with no class to track [main] stops with
    [SystemExit] before any servo command and before any frame, whatever
    the rest of the configuration. *)
Theorem empty_class_ids_rejected {D : Type} `{ServoDriver D}
    (cfg : config) (args : arguments) (names : gmap Z string) :
  rejected (D:=D) cfg args [] names.
Proof. intros ticks w. reflexivity. Qed.

(** C8, as the specification states it: a range with [min_angle] above
    [max_angle] is not refused. *)
Lemma reversed_range_is_accepted :
  ~ (forall cfg class_ids,
        impossible cfg class_ids ->
        rejected (D:=MockServo) cfg default_arguments class_ids coco_names).
Proof.
  intros Hclaim.
  assert (Hbad : impossible reversed_pan cat_person)
    by (right; left; vm_compute; reflexivity).
  specialize (Hclaim reversed_pan cat_person Hbad [Frame cat_frame] mock_world).
  vm_compute in Hclaim. discriminate.
Qed.

(** C9: on the hardware driver, whatever the servo kit reads back, an
    angle of zero that was set is not what [get_angle] returns. *)
Theorem PCA9685Servo_never_reads_zero {K : Type} `{ServoKit K}
    (self self' : PCA9685Servo K) (port : Z) (v : num) :
  set_angle self port (Int 0) = Ok self' ->
  get_angle self' port = Ok v ->
  py_eq v (Int 0) = false.
Proof.
  intros _. simpl. unfold PCA9685Servo_get_angle, mbind, result_bind.
  destruct (kit_read (_kit self') port) as [[n |] |]; [| | discriminate].
  - destruct (truthy n) eqn:Ht; intros [= <-]; [by apply truthy_nonzero | done].
  - by intros [= <-].
Qed.

Lemma PCA9685Servo_never_reads_zero_witness :
  get_angle {| _kit := ({[ 0 := 0 ]} : StoreKit) |} 0 = Ok (Int 90)
  /\ py_eq (Int 90) (Int 0) = false.
Proof.
  split; [vm_compute; reflexivity |].
  apply (PCA9685Servo_never_reads_zero (K:=StoreKit)
           {| _kit := (∅ : StoreKit) |} {| _kit := ({[ 0 := 0 ]} : StoreKit) |}
           0 (Int 90)); vm_compute; reflexivity.
Defined.

(** C10: on a frame without a target whose incremented miss counter is
    still below [SCAN_START_FRAMES], the iteration commands nothing (the
    trace and the servo are as before) and both angles are kept; only the
    counter moves. *)
Theorem hold_commands_nothing {D : Type} `{ServoDriver D}
    (cfg : config) (args : arguments) (class_ids : list Z)
    (names : gmap Z string) (f : frame) (st : vars) (w : world D)
    (cx cy : float) (b : best) :
  observe args class_ids names f = Ok (cx, cy, b) ->
  best_c b = None ->
  frames_no_target st + 1 < SCAN_START_FRAMES cfg ->
  frame_body cfg args class_ids names f st w
  = (Ok {| pan_angle := pan_angle st; tilt_angle := tilt_angle st;
           scan_direction := scan_direction st;
           frames_no_target := frames_no_target st + 1 |}, w).
Proof. intros Hobs Hb Hlt. by apply (frame_body_hold cfg args class_ids names f st w cx cy b). Qed.

Lemma hold_commands_nothing_witness :
  frame_body source_config default_arguments cat_person coco_names
    no_detection at_centre mock_world
  = (Ok {| pan_angle := Flt f90; tilt_angle := Flt f90;
           scan_direction := 1; frames_no_target := 1 |}, mock_world).
Proof.
  apply (hold_commands_nothing source_config default_arguments cat_person
           coco_names no_detection at_centre mock_world
           (S754_finite false 5629499534213120 (-44))
           (S754_finite false 8444249301319680 (-45)) no_best);
    vm_compute; reflexivity.
Defined.

(* ================================================================== *)
(** ** Further facts: the mock driver *)

Lemma list_index_Ok {A} (l : list A) (port : Z) (i : nat) :
  list_index l port = Ok i ->
  (i < length l)%nat
  /\ Z.of_nat i = if port <? 0 then port + Z.of_nat (length l) else port.
Proof.
  unfold list_index.
  destruct (_ && _) eqn:Hb; [| discriminate]. intros [= <-].
  apply andb_true_iff in Hb as [H0 H1].
  apply Z.leb_le in H0. apply Z.ltb_lt in H1. lia.
Qed.

Lemma clamp_0_180_bounds (a : Z) : 0 <= clamp_0_180 a <= 180.
Proof. unfold clamp_0_180. lia. Qed.

(** X1: what is set on a port of the mock driver is what is read back from
    it: the angle truncated to an [int] and clamped to [0, 180]. *)
Theorem MockServo_reads_back_what_was_set (self : MockServo) (port : Z)
    (angle : num) (a : Z) (i : nat) :
  py_int angle = Ok a ->
  list_index (_angles self) port = Ok i ->
  exists self',
    set_angle self port angle = Ok self'
    /\ get_angle self' port = Ok (Int (Z.max 0 (Z.min 180 a))).
Proof.
  intros Ha Hi. destruct (list_index_Ok _ _ _ Hi) as [Hlt _].
  cbn [set_angle get_angle MockServo_driver].
  unfold MockServo_set_angle, MockServo_get_angle, mbind, result_bind.
  rewrite Ha, Hi. eexists. split; [reflexivity |]. cbn [_angles].
  replace (list_index (<[i:=clamp_0_180 a]> (_angles self)) port) with (Ok (A:=nat) i).
  - by rewrite list_lookup_insert_eq.
  - unfold list_index in *. by rewrite length_insert.
Qed.

Lemma MockServo_reads_back_what_was_set_witness :
  exists self',
    set_angle (MockServo_init 4) 1 (Flt f106_5) = Ok self'
    /\ get_angle self' 1 = Ok (Int 106).
Proof.
  apply (MockServo_reads_back_what_was_set (MockServo_init 4) 1 (Flt f106_5)
           106 1%nat); vm_compute; reflexivity.
Defined.

(** X2: setting a port of the mock driver leaves every other port as it
    was, and the number of ports with it. *)
Theorem MockServo_set_angle_frame (self self' : MockServo) (port other : Z)
    (angle : num) (i j : nat) :
  set_angle self port angle = Ok self' ->
  list_index (_angles self) port = Ok i ->
  list_index (_angles self) other = Ok j ->
  i <> j ->
  get_angle self' other = get_angle self other
  /\ length (_angles self') = length (_angles self).
Proof.
  cbn [set_angle get_angle MockServo_driver].
  unfold MockServo_set_angle, MockServo_get_angle, mbind, result_bind.
  intros Hset Hi Hj Hne. rewrite Hi in Hset.
  destruct (py_int angle) as [a |]; [| discriminate].
  injection Hset as <-. cbn [_angles]. rewrite length_insert. split; [| done].
  replace (list_index (<[i:=clamp_0_180 a]> (_angles self)) other) with (Ok (A:=nat) j)
    by (unfold list_index in *; by rewrite length_insert).
  rewrite Hj. by rewrite list_lookup_insert_ne.
Qed.

Lemma MockServo_set_angle_frame_witness :
  get_angle {| _angles := [106; 90; 90; 90] |} 1
  = get_angle (MockServo_init 4) 1
  /\ length (_angles {| _angles := [106; 90; 90; 90] |})
     = length (_angles (MockServo_init 4)).
Proof.
  apply (MockServo_set_angle_frame (MockServo_init 4)
           {| _angles := [106; 90; 90; 90] |} 0 1 (Flt f106_5) 0%nat 1%nat);
    try (vm_compute; reflexivity).
  discriminate.
Defined.

(** X3: every angle held by the mock driver is within [0, 180]: it is so
    on creation and every [set_angle] keeps it so. *)
Theorem MockServo_angles_within_0_180 (num_ports : Z) :
  Forall (fun v => 0 <= v <= 180) (_angles (MockServo_init num_ports))
  /\ forall self self' port angle,
       Forall (fun v => 0 <= v <= 180) (_angles self) ->
       set_angle self port angle = Ok self' ->
       Forall (fun v => 0 <= v <= 180) (_angles self').
Proof.
  split.
  - unfold MockServo_init. cbn [_angles]. apply Forall_replicate. lia.
  - intros self self' port angle Hall.
    cbn [set_angle MockServo_driver].
    unfold MockServo_set_angle, mbind, result_bind.
    destruct (py_int angle) as [a |]; [| discriminate].
    destruct (list_index (_angles self) port) as [i |]; [| discriminate].
    intros [= <-]. cbn [_angles].
    apply Forall_insert; [exact Hall | apply clamp_0_180_bounds].
Qed.

(** X4: a mock driver just created reads 90 on each of its ports, counted
    from the front or (with a negative port) from the back, and raises
    [IndexError] on any other port. *)
Theorem MockServo_init_get_angle (num_ports port : Z) :
  get_angle (MockServo_init num_ports) port
  = if (- Z.max 0 num_ports <=? port) && (port <? Z.max 0 num_ports)
    then Ok (Int 90) else Raise IndexError.
Proof.
  cbn [get_angle MockServo_driver].
  unfold MockServo_get_angle, MockServo_init, list_index, mbind, result_bind.
  cbn [_angles]. rewrite length_replicate.
  assert (Hn : Z.of_nat (Z.to_nat num_ports) = Z.max 0 num_ports) by lia.
  rewrite Hn.
  destruct (Z.ltb_spec port 0) as [Hneg | Hpos];
    destruct (Z.leb_spec (- Z.max 0 num_ports) port);
    destruct (Z.ltb_spec port (Z.max 0 num_ports)); cbn [andb];
    repeat match goal with
      | |- context [?a <=? ?b] => destruct (Z.leb_spec a b); try lia
      | |- context [?a <? ?b] => destruct (Z.ltb_spec a b); try lia
      end; cbn [andb]; try reflexivity.
  - rewrite lookup_replicate_2; [reflexivity | lia].
  - rewrite lookup_replicate_2; [reflexivity | lia].
Qed.

(** X5: on the mock driver a negative port is the port counted from the
    back: what is set on port [- k] is read on port [n - k]. *)
Theorem MockServo_negative_port (self : MockServo) (k : Z) (angle : num) (a : Z) :
  py_int angle = Ok a ->
  0 < k <= Z.of_nat (length (_angles self)) ->
  exists self',
    set_angle self (- k) angle = Ok self'
    /\ get_angle self' (Z.of_nat (length (_angles self)) - k)
       = Ok (Int (Z.max 0 (Z.min 180 a))).
Proof.
  intros Ha Hk.
  assert (Hi : list_index (_angles self) (- k)
               = Ok (Z.to_nat (Z.of_nat (length (_angles self)) - k))).
  { unfold list_index.
    destruct (Z.ltb_spec (- k) 0); [| lia].
    destruct (Z.leb_spec 0 (- k + Z.of_nat (length (_angles self)))); [| lia].
    destruct (Z.ltb_spec (- k + Z.of_nat (length (_angles self)))
                (Z.of_nat (length (_angles self)))); [| lia].
    cbn [andb]. do 2 f_equal. lia. }
  assert (Hj : list_index (_angles self) (Z.of_nat (length (_angles self)) - k)
               = Ok (Z.to_nat (Z.of_nat (length (_angles self)) - k))).
  { unfold list_index.
    destruct (Z.ltb_spec (Z.of_nat (length (_angles self)) - k) 0); [lia |].
    destruct (Z.leb_spec 0 (Z.of_nat (length (_angles self)) - k)); [| lia].
    destruct (Z.ltb_spec (Z.of_nat (length (_angles self)) - k)
                (Z.of_nat (length (_angles self)))); [| lia].
    reflexivity. }
  cbn [set_angle get_angle MockServo_driver].
  unfold MockServo_set_angle, MockServo_get_angle, mbind, result_bind.
  rewrite Ha, Hi. eexists. split; [reflexivity |]. cbn [_angles].
  match goal with |- context [list_index (<[?i:=?v]> ?l) ?p] =>
    replace (list_index (<[i:=v]> l) p) with (Ok (A:=nat) i)
      by (unfold list_index in *; by rewrite length_insert) end.
  rewrite list_lookup_insert_eq; [reflexivity | lia].
Qed.

Lemma MockServo_negative_port_witness :
  exists self',
    set_angle (MockServo_init 4) (- 1) (Int 200) = Ok self'
    /\ get_angle self' (Z.of_nat (length (_angles (MockServo_init 4))) - 1)
       = Ok (Int 180).
Proof.
  apply (MockServo_negative_port (MockServo_init 4) 1 (Int 200) 200);
    [reflexivity | vm_compute; split; [reflexivity | discriminate]].
Defined.

(* ================================================================== *)
(** ** Further facts: the hardware driver *)

Lemma MockServo_angles_within_0_180_witness :
  Forall (fun v => 0 <= v <= 180) (_angles {| _angles := [90; 180; 90; 90] |}).
Proof.
  apply (proj2 (MockServo_angles_within_0_180 4) (MockServo_init 4)
           {| _angles := [90; 180; 90; 90] |} 1 (Int 500)).
  - apply (proj1 (MockServo_angles_within_0_180 4)).
  - vm_compute. reflexivity.
Defined.

(** X6: whatever angle is asked of the hardware driver, what it writes to
    the servo kit is an [int] within [0, 180]. *)
Theorem PCA9685Servo_writes_within_0_180 {K : Type} `{ServoKit K}
    (self self' : PCA9685Servo K) (port : Z) (angle : num) :
  set_angle self port angle = Ok self' ->
  exists a, 0 <= a <= 180 /\ kit_write (_kit self) port a = Ok (_kit self').
Proof.
  cbn [set_angle PCA9685Servo_driver].
  unfold PCA9685Servo_set_angle, mbind, result_bind.
  destruct (py_int angle) as [a |]; [| discriminate].
  destruct (kit_write (_kit self) port (clamp_0_180 a)) as [k |] eqn:Hk;
    [| discriminate].
  intros [= <-]. exists (clamp_0_180 a). split; [| exact Hk].
  unfold clamp_0_180. lia.
Qed.

Lemma PCA9685Servo_writes_within_0_180_witness :
  exists a, 0 <= a <= 180
    /\ kit_write (_kit {| _kit := (∅ : StoreKit) |}) 0 a
       = Ok (_kit {| _kit := ({[ 0 := 180 ]} : StoreKit) |}).
Proof.
  apply (PCA9685Servo_writes_within_0_180 (K:=StoreKit)
           {| _kit := (∅ : StoreKit) |}
           {| _kit := ({[ 0 := 180 ]} : StoreKit) |} 0 (Int 270)).
  vm_compute. reflexivity.
Defined.

Lemma init_ports_StoreKit (n : nat) (k : StoreKit) (i : Z) :
  exists k', init_ports k i n = Ok k'
    /\ forall p, k' !! p = if (i <=? p) && (p <? i + Z.of_nat n)
                           then Some 90 else k !! p.
Proof.
  unfold StoreKit in *.
  revert k i. induction n as [| n IH]; intros k i.
  - exists k. split; [reflexivity |]. intros p.
    destruct (Z.leb_spec i p); destruct (Z.ltb_spec p (i + Z.of_nat 0));
      cbn [andb]; try reflexivity; lia.
  - cbn [init_ports kit_write StoreKit_kit]. unfold mbind, result_bind.
    destruct (IH (<[i := 90]> k) (i + 1)) as (k' & Hk' & Hlook).
    exists k'. split; [exact Hk' |]. intros p. rewrite Hlook.
    destruct (decide (i = p)) as [<- | Hne];
      [rewrite lookup_insert_eq | rewrite lookup_insert_ne by done];
      repeat match goal with
        | |- context [?a <=? ?b] => destruct (Z.leb_spec a b)
        | |- context [?a <? ?b] => destruct (Z.ltb_spec a b)
        end;
      cbn [andb]; try reflexivity; lia.
Qed.

(** X7: on a kit that reads back what was written, the hardware driver
    once created reads 90 on every port: on those it has set to 90 and on
    those never set. *)
Theorem PCA9685Servo_init_reads_90 (num_ports port : Z) :
  exists self,
    PCA9685Servo_init (∅ : StoreKit) num_ports = Ok self
    /\ get_angle self port = Ok (Int 90).
Proof.
  unfold PCA9685Servo_init, mbind, result_bind.
  destruct (init_ports_StoreKit (Z.to_nat num_ports) ∅ 0) as (k & -> & Hlook).
  eexists. split; [reflexivity |].
  cbn [get_angle PCA9685Servo_driver].
  unfold PCA9685Servo_get_angle, mbind, result_bind.
  cbn [kit_read StoreKit_kit _kit]. rewrite Hlook.
  destruct (_ && _); [reflexivity |]. unfold StoreKit. by rewrite lookup_empty.
Qed.

(* ================================================================== *)
(** ** Further facts: rounding *)

(** Rounding a finite float between two [int]s gives an [int] between
    them. *)
Lemma round_float_within (lo hi : Z) (f : float) :
  within (lo, hi) (Flt f) = true ->
  exists c, round_float f = Ok c /\ lo <= c <= hi.
Proof.
  unfold within, py_le, num_compare. cbn [fst snd].
  destruct f as [s | s | | s m e]; cbn [Zcompare_float option_map round_float].
  - intros H. exists 0. split; [reflexivity |].
    apply andb_true_iff in H as [H1 H2].
    destruct (Z.compare_spec lo 0); destruct (Z.compare_spec hi 0);
      cbn [CompOpp] in *; try discriminate; lia.
  - destruct s; cbn [CompOpp]; intros H; discriminate.
  - discriminate.
  - destruct (Z.leb_spec 0 e) as [He | He]; cbn [option_map].
    + intros H. eexists. split; [reflexivity |].
      apply andb_true_iff in H as [H1 H2].
      destruct (Z.compare_spec lo (cond_Zopp s (Z.pos m) * 2 ^ e));
        destruct (Z.compare_spec hi (cond_Zopp s (Z.pos m) * 2 ^ e));
        cbn [CompOpp] in *; try discriminate;
        destruct s; cbn [cond_Zopp] in *; lia.
    + intros H. eexists. split; [reflexivity |].
      apply andb_true_iff in H as [H1 H2].
      assert (Hd : 0 < 2 ^ (- e)) by (apply Z.pow_pos_nonneg; lia).
      set (d := 2 ^ (- e)) in *. clearbody d.
      pose proof (Z.div_mod (Z.pos m) d ltac:(lia)) as Hdm.
      pose proof (Z.mod_pos_bound (Z.pos m) d Hd) as Hr.
      set (q := Z.pos m / d) in *. set (r := Z.pos m mod d) in *.
      clearbody q r.
      assert (Hlo : lo * d <= cond_Zopp s (Z.pos m)).
      { destruct (Z.compare_spec (lo * d) (cond_Zopp s (Z.pos m)));
          try discriminate; lia. }
      assert (Hhi : cond_Zopp s (Z.pos m) <= hi * d).
      { destruct (Z.compare_spec (hi * d) (cond_Zopp s (Z.pos m)));
          cbn [CompOpp] in *; try discriminate; lia. }
      clear H1 H2.
      destruct (Z.compare_spec (2 * r) d); [destruct (Z.even q) | |];
        destruct s; cbn [cond_Zopp] in *; nia.
Qed.

Lemma py_round_within (range : Z * Z) (x : num) :
  within range x = true ->
  exists c, py_round x = Ok c /\ fst range <= c <= snd range.
Proof.
  destruct range as [lo hi]. destruct x as [z | f].
  - intros H. exists z. split; [reflexivity |]. cbn [fst snd].
    unfold within, py_le, num_compare in H. cbn [fst snd] in H.
    apply andb_true_iff in H as [H1 H2].
    destruct (Z.compare_spec lo z); destruct (Z.compare_spec z hi);
      try discriminate; lia.
  - apply round_float_within.
Qed.

(* ================================================================== *)
(** ** Further facts: the commands of the loop *)

Lemma track_Ok (cfg : config) (args : arguments) (st : vars)
    (bx by_ cx cy : float) :
  well_formed cfg = true ->
  within (PAN_RANGE cfg) (pan_angle st) = true ->
  within (TILT_RANGE cfg) (tilt_angle st) = true ->
  exists pan tilt, track cfg args st bx by_ cx cy = Ok (pan, tilt).
Proof.
  intros (_ & _ & [Hpl Hph] & [Htl Hth] & [Hpd Htd] & _)%well_formed_spec
    Hpan Htilt.
  destruct (axis_error_Ok cfg bx cx (invert_pan args)) as (ex & Hex & Hkx).
  destruct (axis_error_Ok cfg by_ cy (invert_tilt args)) as (ey & Hey & Hky).
  destruct (axis_move_Ok args _ ex _ Hpl Hph Hpd Hpan Hkx) as [pan Hp].
  destruct (axis_move_Ok args _ ey _ Htl Hth Htd Htilt Hky) as [tilt Ht].
  exists pan, tilt. unfold track, mbind, result_bind.
  by rewrite Hex, Hey, Hp, Ht.
Qed.

Lemma scan_Ok (cfg : config) (st : vars) :
  well_formed cfg = true ->
  within (PAN_RANGE cfg) (pan_angle st) = true ->
  direction_ok st ->
  exists pan dir, scan cfg st = Ok (pan, dir).
Proof.
  intros (_ & _ & [Hsl Hsh] & _)%well_formed_spec Hin Hdir.
  unfold scan, mbind, result_bind.
  destruct (within_to_float _ _ Hsl Hsh Hin) as (a & -> & _).
  destruct (to_float_direction _ Hdir) as (s & m & e & ->).
  rewrite !to_float_small by done.
  destruct (py_ge _ _); [eauto |]. destruct (py_le _ _); eauto.
Qed.

Section Commands.
Context {D : Type} `{ServoDriver D}.
Variable cfg : config.
Variable args : arguments.
Variable class_ids : list Z.
Variable names : gmap Z string.

(** What [command] does with angles within their ranges. *)
Lemma command_within (pan tilt : num) (w : world D) :
  within (PAN_RANGE cfg) pan = true ->
  within (TILT_RANGE cfg) tilt = true ->
  exists p t,
    py_round pan = Ok p /\ py_round tilt = Ok t
    /\ fst (PAN_RANGE cfg) <= p <= snd (PAN_RANGE cfg)
    /\ fst (TILT_RANGE cfg) <= t <= snd (TILT_RANGE cfg)
    /\ trace (snd (command cfg pan tilt w))
       = trace w
         ++ SetAngle (PAN_SERVO_PORT cfg) p
            :: (if is_ok (set_angle (servo w) (PAN_SERVO_PORT cfg) (Int p))
                then [SetAngle (TILT_SERVO_PORT cfg) t] else []).
Proof.
  intros Hp Ht.
  destruct (py_round_within _ _ Hp) as (p & Hrp & Hbp).
  destruct (py_round_within _ _ Ht) as (t & Hrt & Hbt).
  exists p, t. repeat (split; [done |]).
  unfold command, mbind, M_bind, lift, servo_set_angle. rewrite Hrp.
  destruct (set_angle (servo w) (PAN_SERVO_PORT cfg) (Int p)) as [d |];
    cbn [is_ok trace snd]; [| reflexivity].
  rewrite Hrt. cbn [servo trace].
  destruct (set_angle d (TILT_SERVO_PORT cfg) (Int t)); cbn [snd trace];
    by rewrite <- app_assoc.
Qed.

Lemma command_in_range (pan tilt : num) (w : world D) :
  within (PAN_RANGE cfg) pan = true ->
  within (TILT_RANGE cfg) tilt = true ->
  exists l, trace (snd (command cfg pan tilt w)) = trace w ++ l
            /\ Forall (in_range_command cfg) l.
Proof.
  intros Hp Ht.
  destruct (command_within pan tilt w Hp Ht) as (p & t & _ & _ & Hbp & Hbt & ->).
  eexists. split; [reflexivity |].
  apply Forall_cons. split; [by left |].
  destruct (is_ok _); [| constructor].
  apply Forall_cons. split; [by right | constructor].
Qed.

Lemma frame_body_in_range (f : frame) (st : vars) (w : world D) :
  well_formed cfg = true -> inv cfg st ->
  exists l,
    trace (snd (frame_body cfg args class_ids names f st w)) = trace w ++ l
    /\ Forall (in_range_command cfg) l.
Proof.
  intros Hwf (Hp & Ht & Hd).
  unfold frame_body, mbind, M_bind, lift.
  destruct (observe args class_ids names f) as [[[cx cy] b] |];
    [| exists []; by rewrite app_nil_r].
  destruct (best_c b) as [[bx by_] |].
  - destruct (track cfg args st bx by_ cx cy) as [[pan tilt] |] eqn:Htr;
      [| exists []; by rewrite app_nil_r].
    destruct (track_within cfg args _ _ _ _ _ _ _ Hwf Htr) as [Hp' Ht'].
    destruct (command_in_range pan tilt w Hp' Ht') as (l & Hl & Hall).
    exists l. split; [| done].
    by destruct (command cfg pan tilt w) as [[[] |] w1].
  - destruct (SCAN_START_FRAMES cfg <=? frames_no_target st + 1);
      [| exists []; by rewrite app_nil_r].
    destruct (scan cfg st) as [[pan dir] |] eqn:Hs;
      [| exists []; by rewrite app_nil_r].
    destruct (scan_within cfg _ _ _ Hwf Hp Hd Hs) as [Hp' _].
    destruct (command_in_range pan (tilt_angle st) w Hp' Ht) as (l & Hl & Hall).
    exists l. split; [| done].
    by destruct (command cfg pan (tilt_angle st) w) as [[[] |] w1].
Qed.

Lemma loop_in_range (ticks : list tick) (st : vars) (w : world D) :
  well_formed cfg = true -> inv cfg st ->
  exists l,
    trace (snd (loop cfg args class_ids names ticks st w)) = trace w ++ l
    /\ Forall (in_range_command cfg) l.
Proof.
  intros Hwf. revert st w.
  induction ticks as [| [f | e] ticks IH]; intros st w Hinv; cbn [loop];
    try (exists []; by rewrite app_nil_r).
  unfold mbind, M_bind.
  destruct (frame_body_in_range f st w Hwf Hinv) as (l1 & Hl1 & Hall1).
  destruct (frame_body cfg args class_ids names f st w) as [[st1 | e] w1] eqn:Hf;
    cbn [snd] in Hl1; [| by exists l1].
  destruct (IH st1 w1) as (l2 & Hl2 & Hall2);
    [by eapply (frame_body_inv cfg args class_ids names) |].
  exists (l1 ++ l2). split.
  - by rewrite Hl2, Hl1, <- app_assoc.
  - by apply Forall_app.
Qed.

End Commands.

(** X8: under a well-formed configuration every servo command the loop
    issues, from the centre and over any frames, is a pan command within
    the pan range or a tilt command within the tilt range. *)
Theorem loop_commands_stay_in_range {D : Type} `{ServoDriver D}
    (cfg : config) (args : arguments) (class_ids : list Z)
    (names : gmap Z string) (ticks : list tick) (st0 : vars) (w : world D) :
  well_formed cfg = true ->
  initial_vars cfg = Ok st0 ->
  exists commands,
    trace (snd (loop cfg args class_ids names ticks st0 w))
    = trace w ++ commands
    /\ Forall (in_range_command cfg) commands.
Proof.
  intros Hwf Hinit. apply loop_in_range; [exact Hwf |].
  by apply initial_vars_inv.
Qed.

Lemma loop_commands_stay_in_range_witness :
  exists commands,
    trace (snd (loop source_config default_arguments cat_person coco_names
                  sweep_ticks at_centre mock_world))
    = trace mock_world ++ commands
    /\ Forall (in_range_command source_config) commands.
Proof.
  apply (loop_commands_stay_in_range source_config default_arguments
           cat_person coco_names sweep_ticks at_centre mock_world);
    vm_compute; reflexivity.
Defined.

(** X9: once the miss counter reaches [SCAN_START_FRAMES], a frame without
    a target does make the pan axis scan: under a well-formed
    configuration and the invariant of the loop, the scan step and both
    roundings return, the pan command is issued, and the tilt command
    follows with the held tilt angle whenever the driver accepts the pan
    command. *)
Theorem scan_starts_at_the_threshold {D : Type} `{ServoDriver D}
    (cfg : config) (args : arguments) (class_ids : list Z)
    (names : gmap Z string) (f : frame) (st : vars) (w : world D) :
  well_formed cfg = true ->
  inv cfg st ->
  is_miss args class_ids names f ->
  SCAN_START_FRAMES cfg <= frames_no_target st + 1 ->
  exists pan dir p t,
    scan cfg st = Ok (pan, dir)
    /\ py_round pan = Ok p
    /\ py_round (tilt_angle st) = Ok t
    /\ trace (snd (frame_body cfg args class_ids names f st w))
       = trace w
         ++ SetAngle (PAN_SERVO_PORT cfg) p
            :: (if is_ok (set_angle (servo w) (PAN_SERVO_PORT cfg) (Int p))
                then [SetAngle (TILT_SERVO_PORT cfg) t] else []).
Proof.
  intros Hwf (Hp & Ht & Hd) (cx & cy & b & Hobs & Hb) Hle.
  destruct (scan_Ok cfg st Hwf Hp Hd) as (pan & dir & Hs).
  destruct (scan_within cfg _ _ _ Hwf Hp Hd Hs) as [Hp' _].
  destruct (command_within cfg pan (tilt_angle st) w Hp' Ht)
    as (p & t & Hrp & Hrt & _ & _ & Htr).
  exists pan, dir, p, t. repeat (split; [done |]).
  unfold frame_body, mbind, M_bind, lift. rewrite Hobs, Hb.
  destruct (Z.leb_spec (SCAN_START_FRAMES cfg) (frames_no_target st + 1)); [| lia].
  rewrite Hs. rewrite <- Htr.
  by destruct (command cfg pan (tilt_angle st) w) as [[[] |] w1].
Qed.

Lemma scan_starts_at_the_threshold_witness :
  trace (snd (frame_body source_config default_arguments cat_person coco_names
                no_detection near_max mock_world))
  = [SetAngle 0 150; SetAngle 1 90].
Proof.
  destruct (scan_starts_at_the_threshold source_config default_arguments
              cat_person coco_names no_detection near_max mock_world)
    as (pan & dir & p & t & Hs & Hrp & Hrt & Htr).
  - vm_compute. reflexivity.
  - split; [vm_compute; reflexivity |].
    split; [vm_compute; reflexivity | left; reflexivity].
  - eexists _, _, _. vm_compute. split; reflexivity.
  - vm_compute. discriminate.
  - assert (Hs' : scan source_config near_max = Ok (Flt (Z2F 150), -1))
      by (vm_compute; reflexivity).
    assert (Hpan : pan = Flt (Z2F 150)) by congruence. subst pan.
    assert (Hrp' : py_round (Flt (Z2F 150)) = Ok 150) by (vm_compute; reflexivity).
    assert (Hp : p = 150) by congruence. subst p.
    assert (Hrt' : py_round (tilt_angle near_max) = Ok 90)
      by (vm_compute; reflexivity).
    assert (Ht : t = 90) by congruence. subst t.
    etransitivity; [exact Htr |]. vm_compute. reflexivity.
Defined.

Section OnTheMock.
Variable cfg : config.
Variable args : arguments.
Variable class_ids : list Z.
Variable names : gmap Z string.

Lemma MockServo_accepts (servo : MockServo) (port a : Z) :
  is_ok (list_index (_angles servo) port) = true ->
  exists servo', set_angle servo port (Int a) = Ok servo'
    /\ length (_angles servo') = length (_angles servo).
Proof.
  cbn [set_angle MockServo_driver].
  unfold MockServo_set_angle, mbind, result_bind. cbn [py_int].
  destruct (list_index (_angles servo) port) as [i |]; [| discriminate].
  intros _. eexists. split; [reflexivity |]. cbn [_angles].
  by rewrite length_insert.
Qed.

Lemma ports_ok_length (servo servo' : MockServo) :
  length (_angles servo') = length (_angles servo) ->
  ports_ok cfg servo -> ports_ok cfg servo'.
Proof. unfold ports_ok, list_index. by intros ->. Qed.

Lemma command_on_mock (pan tilt : num) (w : world MockServo) :
  within (PAN_RANGE cfg) pan = true ->
  within (TILT_RANGE cfg) tilt = true ->
  ports_ok cfg (servo w) ->
  exists w', command cfg pan tilt w = (Ok (), w') /\ ports_ok cfg (servo w').
Proof.
  intros Hp Ht [Hpp Htp].
  destruct (py_round_within _ _ Hp) as (p & Hrp & _).
  destruct (py_round_within _ _ Ht) as (t & Hrt & _).
  destruct (MockServo_accepts (servo w) (PAN_SERVO_PORT cfg) p Hpp)
    as (d1 & Hd1 & Hlen1).
  assert (Hok1 : ports_ok cfg d1) by (by eapply ports_ok_length).
  destruct (MockServo_accepts d1 (TILT_SERVO_PORT cfg) t (proj2 Hok1))
    as (d2 & Hd2 & Hlen2).
  eexists. split.
  - by apply (command_Ok cfg pan tilt p t w d1 d2).
  - cbn [servo]. by eapply ports_ok_length.
Qed.

Lemma frame_body_on_mock (f : frame) (st : vars) (w : world MockServo) :
  well_formed cfg = true -> inv cfg st -> ports_ok cfg (servo w) ->
  is_ok (observe args class_ids names f) = true ->
  exists st' w',
    frame_body cfg args class_ids names f st w = (Ok st', w')
    /\ ports_ok cfg (servo w').
Proof.
  intros Hwf (Hp & Ht & Hd) Hports Hobs.
  unfold frame_body, mbind, M_bind, lift.
  destruct (observe args class_ids names f) as [[[cx cy] b] |]; [| discriminate].
  destruct (best_c b) as [[bx by_] |].
  - destruct (track_Ok cfg args st bx by_ cx cy Hwf Hp Ht) as (pan & tilt & Htr).
    rewrite Htr.
    destruct (track_within cfg args _ _ _ _ _ _ _ Hwf Htr) as [Hp' Ht'].
    destruct (command_on_mock pan tilt w Hp' Ht' Hports) as (w' & -> & Hports').
    eauto.
  - destruct (SCAN_START_FRAMES cfg <=? frames_no_target st + 1); [| eauto].
    destruct (scan_Ok cfg st Hwf Hp Hd) as (pan & dir & Hs). rewrite Hs.
    destruct (scan_within cfg _ _ _ Hwf Hp Hd Hs) as [Hp' _].
    destruct (command_on_mock pan (tilt_angle st) w Hp' Ht Hports)
      as (w' & -> & Hports').
    eauto.
Qed.

End OnTheMock.

(** X10: with the mock driver, a well-formed configuration whose two
    ports exist, and frames from which the centre and the target can be
    computed, the loop never raises: no arithmetic of the control law, no
    rounding and no servo command fails, however many frames there are. *)
Theorem loop_never_raises_on_the_mock (cfg : config) (args : arguments)
    (class_ids : list Z) (names : gmap Z string) (ticks : list tick)
    (st0 : vars) (w : world MockServo) :
  well_formed cfg = true ->
  ports_ok cfg (servo w) ->
  initial_vars cfg = Ok st0 ->
  Forall (observable args class_ids names) ticks ->
  exists st w', loop cfg args class_ids names ticks st0 w = (Ok st, w').
Proof.
  intros Hwf Hports Hinit Hall.
  assert (Hinv : inv cfg st0) by (by apply initial_vars_inv).
  clear Hinit. revert st0 w Hports Hinv.
  induction Hall as [| [f | e] ticks Hobs _ IH]; intros st w Hports Hinv;
    cbn [loop]; [by eexists _, _ | | done].
  unfold mbind, M_bind.
  destruct (frame_body_on_mock cfg args class_ids names f st w Hwf Hinv Hports Hobs)
    as (st1 & w1 & Hf & Hports1).
  rewrite Hf. apply IH; [exact Hports1 |].
  by eapply (frame_body_inv cfg args class_ids names).
Qed.

Lemma loop_never_raises_on_the_mock_witness :
  exists st w',
    loop source_config default_arguments cat_person coco_names sweep_ticks
      at_centre mock_world = (Ok st, w').
Proof.
  apply (loop_never_raises_on_the_mock source_config default_arguments
           cat_person coco_names sweep_ticks at_centre mock_world).
  - vm_compute. reflexivity.
  - split; vm_compute; reflexivity.
  - vm_compute. reflexivity.
  - repeat constructor.
Defined.

(* ================================================================== *)
(** ** Further facts: the rows of a frame *)

Section Rows.
Variable args : arguments.
Variable class_ids : list Z.
Variable names : gmap Z string.

Lemma row_body_short (r : row) (b : best) :
  has_box r = false -> row_body args class_ids names r b = Ok b.
Proof.
  unfold has_box.
  destruct r as [| r0 [| r1 [| r2 [| r3 rest]]]]; try reflexivity.
  cbn [length]. intros Hlen%Nat.leb_gt. lia.
Qed.

Lemma for_rows_filter (data : list row) (b : best) :
  for_rows args class_ids names (filter (fun r => has_box r = true) data) b
  = for_rows args class_ids names data b.
Proof.
  revert b. induction data as [| r data IH]; intros b; [reflexivity |].
  rewrite filter_cons. destruct (decide (has_box r = true)) as [Hr | Hr].
  - cbn [for_rows]. destruct (row_body args class_ids names r b); cbn; [apply IH | done].
  - apply not_true_is_false in Hr.
    cbn [for_rows]. rewrite (row_body_short r b Hr). cbn. apply IH.
Qed.

Lemma for_rows_parsed (data : list row) (ds : list detection) (b : best) :
  parse_rows data = Ok ds ->
  for_rows args class_ids names data b = consider_all args class_ids names ds b.
Proof.
  revert ds b. induction data as [| r data IH]; intros ds b; cbn [parse_rows for_rows].
  - by intros [= <-].
  - unfold row_body, mbind, result_bind.
    destruct (parse_row r) as [[d |] |]; [| | discriminate];
      destruct (parse_rows data) as [ds' |]; try discriminate;
      intros [= <-].
    + cbn [consider_all]. unfold mbind, result_bind.
      destruct (consider args class_ids names d b); [by apply IH | done].
    + by apply IH.
Qed.

Lemma consider_ext (d d' : detection) (b : best) :
  box_and_class d = box_and_class d' ->
  consider args class_ids names d b = consider args class_ids names d' b.
Proof.
  unfold box_and_class. intros [= H1 H2 H3 H4 H5].
  unfold consider, wanted, area, w_px, h_px, centre, label.
  by rewrite H1, H2, H3, H4, H5.
Qed.

Lemma consider_all_ext (ds ds' : list detection) (b : best) :
  box_and_class <$> ds = box_and_class <$> ds' ->
  consider_all args class_ids names ds b = consider_all args class_ids names ds' b.
Proof.
  revert ds' b. induction ds as [| d ds IH]; intros [| d' ds'] b; try done.
  rewrite !fmap_cons. intros Heq.
  assert (Hd : box_and_class d = box_and_class d') by congruence.
  assert (Hds : box_and_class <$> ds = box_and_class <$> ds') by congruence.
  cbn [consider_all].
  rewrite (consider_ext d d' b Hd). unfold mbind, result_bind.
  destruct (consider args class_ids names d' b); [by apply IH | done].
Qed.

End Rows.

(** X11: rows too short to hold a box (fewer than four columns) play no
    part in the selection: with or without them the result is the same,
    an exception included. *)
Theorem select_ignores_short_rows (args : arguments) (class_ids : list Z)
    (names : gmap Z string) (data : list row) :
  select args class_ids names (Some (filter (fun r => has_box r = true) data))
  = select args class_ids names (Some data).
Proof. apply for_rows_filter. Qed.

(** X12: the selection looks at the box and the class of a detection and
    at nothing else: two frames whose rows convert to the same boxes and
    classes, in the same order, give the same target, whatever the
    confidences, the track ids and the layout of the rows. *)
Theorem select_ignores_confidence (args : arguments) (class_ids : list Z)
    (names : gmap Z string) (data data' : list row)
    (ds ds' : list detection) :
  parse_rows data = Ok ds ->
  parse_rows data' = Ok ds' ->
  box_and_class <$> ds = box_and_class <$> ds' ->
  select args class_ids names (Some data)
  = select args class_ids names (Some data').
Proof.
  intros Hds Hds' Heq. cbn [select].
  rewrite (for_rows_parsed args class_ids names data ds _ Hds).
  rewrite (for_rows_parsed args class_ids names data' ds' _ Hds').
  by apply consider_all_ext.
Qed.

Lemma select_ignores_confidence_witness :
  select default_arguments cat_person coco_names (Some [cat_on_the_right])
  = select default_arguments cat_person coco_names (Some tracked_cat_rows).
Proof.
  apply (select_ignores_confidence default_arguments cat_person coco_names
           [cat_on_the_right] tracked_cat_rows
           [ {| x1 := 470; y1 := 230; x2 := 490; y2 := 250;
                cls_id := cat; conf := f0_5 |} ]
           [ {| x1 := 470; y1 := 230; x2 := 490; y2 := 250;
                cls_id := cat; conf := f0_55 |} ]);
    vm_compute; reflexivity.
Defined.

(* ================================================================== *)
(** ** Further facts: class names *)

Section ClassIdsFacts.
Variable strip : string -> string.
Variable lower : string -> string.

Lemma name_matches_spec (want : string) (name : option string) :
  name_matches lower want name = true
  <-> exists n, name = Some n /\ n <> EmptyString /\ lower n = want.
Proof.
  unfold name_matches. destruct name as [n |].
  - rewrite andb_true_iff, negb_true_iff, String.eqb_neq, String.eqb_eq.
    split.
    + intros [Hne Heq]. by exists n.
    + intros (n' & [= <-] & Hne & Heq). done.
  - split; [done |]. by intros (n & Hn & _).
Qed.

(** The inner loop stops at the first item that matches. *)
Lemma first_match_Some (want : string) (items : list (Z * option string)) (idx : Z) :
  first_match lower want items = Some idx
  <-> exists before name after,
        items = before ++ (idx, name) :: after
        /\ name_matches lower want name = true
        /\ Forall (fun item => name_matches lower want item.2 = false) before.
Proof.
  induction items as [| [i n] items IH]; cbn [first_match].
  - split; [done |]. intros (before & name & after & Heq & _).
    by destruct before.
  - destruct (name_matches lower want n) eqn:Hn.
    + split.
      * intros [= <-]. by exists [], n, items.
      * intros (before & name & after & Heq & Hm & Hall).
        destruct before as [| [i' n'] before].
        -- by injection Heq as -> _ _.
        -- injection Heq as -> -> _. apply Forall_cons in Hall as [Hno _].
           cbn in Hno. congruence.
    + rewrite IH. split.
      * intros (before & name & after & -> & Hm & Hall).
        exists ((i, n) :: before), name, after. split; [done |]. split; [done |].
        by apply Forall_cons.
      * intros (before & name & after & Heq & Hm & Hall).
        destruct before as [| [i' n'] before].
        -- injection Heq as -> -> _. congruence.
        -- injection Heq as -> -> ->. apply Forall_cons in Hall as [_ Hall].
           by exists before, name, after.
Qed.

Lemma first_match_None (want : string) (items : list (Z * option string)) :
  first_match lower want items = None
  <-> Forall (fun item => name_matches lower want item.2 = false) items.
Proof.
  induction items as [| [i n] items IH]; cbn [first_match].
  - split; [constructor | done].
  - destruct (name_matches lower want n) eqn:Hn.
    + split; [done |]. intros [Hno _]%Forall_cons. cbn in Hno. congruence.
    + rewrite IH. split; [intros ?; by apply Forall_cons | by intros [_ ?]%Forall_cons].
Qed.

Lemma get_class_ids_omap (names : list (Z * option string)) (class_names : list string) :
  get_class_ids strip lower names class_names
  = omap (fun want => first_match lower (lower (strip want)) names) class_names.
Proof.
  induction class_names as [| want class_names IH]; [reflexivity |].
  cbn [get_class_ids omap list_omap]. rewrite IH.
  by destruct (first_match _ _ _).
Qed.

End ClassIdsFacts.

(** X13: an id is returned by [get_class_ids] exactly when it is the id of
    the first item of [model.names], in the order of the dictionary, whose
    name is not empty and, lowercased, equals one of the wanted names
    stripped and lowercased. *)
Theorem get_class_ids_first_matches (strip lower : string -> string)
    (names : list (Z * option string)) (class_names : list string) (idx : Z) :
  idx ∈ get_class_ids strip lower names class_names
  <-> exists want before name after,
        want ∈ class_names
        /\ names = before ++ (idx, Some name) :: after
        /\ name <> EmptyString
        /\ lower name = lower (strip want)
        /\ Forall (fun item =>
                     name_matches lower (lower (strip want)) item.2 = false)
             before.
Proof.
  rewrite get_class_ids_omap, list_elem_of_omap. split.
  - intros (want & Hin & (before & name & after & -> & Hm & Hall)%first_match_Some).
    apply name_matches_spec in Hm as (n & -> & Hne & Heq).
    by exists want, before, n, after.
  - intros (want & before & name & after & Hin & -> & Hne & Heq & Hall).
    exists want. split; [done |]. apply first_match_Some.
    exists before, (Some name), after. split; [done |]. split; [| done].
    apply name_matches_spec. by exists name.
Qed.

(** X14: [get_class_ids] answers the wanted names one by one, in their
    order: the ids for two lists of names put end to end are the ids for
    the first followed by the ids for the second, and there are never more
    ids than names. *)
Theorem get_class_ids_app (strip lower : string -> string)
    (names : list (Z * option string)) (wanted1 wanted2 : list string) :
  get_class_ids strip lower names (wanted1 ++ wanted2)
  = get_class_ids strip lower names wanted1
    ++ get_class_ids strip lower names wanted2
  /\ (length (get_class_ids strip lower names wanted1)
      <= length wanted1)%nat.
Proof.
  split; [rewrite !get_class_ids_omap; apply omap_app |].
  induction wanted1 as [| want wanted1 IH]; cbn [get_class_ids length]; [lia |].
  destruct (first_match _ _ _); cbn [length]; lia.
Qed.

(** X15: when no name of the model matches any wanted name,
    [get_class_ids] returns the empty list and [main] stops with
    [SystemExit] before it commands the servo or reads a frame; and the
    list is empty only then. *)
Theorem unknown_classes_stop_main {D : Type} `{ServoDriver D}
    (strip lower : string -> string)
    (names : list (Z * option string)) (class_names : list string)
    (cfg : config) (args : arguments) (labels : gmap Z string)
    (ticks : list tick) (w : world D) :
  (get_class_ids strip lower names class_names = []
   <-> Forall (fun want =>
                 Forall (fun item =>
                           name_matches lower (lower (strip want)) item.2
                           = false) names) class_names)
  /\ (get_class_ids strip lower names class_names = [] ->
      main cfg args (get_class_ids strip lower names class_names) labels
        ticks w = (Raise SystemExit, w)).
Proof.
  split; [| by intros ->].
  induction class_names as [| want class_names IH]; cbn [get_class_ids].
  - split; [constructor | done].
  - destruct (first_match lower (lower (strip want)) names) as [idx |] eqn:Hm.
    + split; [done |]. intros [Hno%first_match_None _]%Forall_cons. congruence.
    + rewrite IH. apply first_match_None in Hm.
      split; [intros ?; by apply Forall_cons | by intros [_ ?]%Forall_cons].
Qed.

(* ================================================================== *)
(** ** Further facts: the servo test *)

Lemma map_seq_ends {A} (f : nat -> A) (n : nat) :
  head (map f (seq 0 (S n))) = Some (f 0%nat)
  /\ last (map f (seq 0 (S n))) = Some (f n).
Proof.
  split; [reflexivity |].
  rewrite seq_S, map_app. cbn [map Nat.add]. apply last_snoc.
Qed.

(** An arithmetic progression from [start] by [step] (of either sign)
    with [n + 1] terms. *)
Lemma progression (start step : Z) (n : nat) (lo hi : Z) :
  lo <= start <= hi -> lo <= start + Z.of_nat n * step <= hi ->
  Forall (fun a => lo <= a <= hi)
    (map (fun i => start + Z.of_nat i * step) (seq 0 (S n))).
Proof.
  intros H0 Hn. apply List.Forall_forall. intros a Ha.
  apply in_map_iff in Ha as (i & <- & Hi). apply in_seq in Hi.
  destruct (Z.le_gt_cases 0 step); nia.
Qed.

Lemma py_range_up (lo hi step : Z) :
  lo <= hi -> 0 < step ->
  exists l, py_range lo (hi + 1) step = Ok l
    /\ Forall (fun a => lo <= a <= hi) l
    /\ head l = Some lo
    /\ last l = Some (lo + (hi - lo) / step * step).
Proof.
  intros Hle Hstep. unfold py_range, range_length.
  destruct (Z.eqb_spec step 0); [lia |].
  destruct (Z.ltb_spec 0 step); [| lia].
  destruct (Z.ltb_spec lo (hi + 1)); [| lia].
  replace (hi + 1 - lo - 1) with (hi - lo) by lia.
  pose proof (Z.div_pos (hi - lo) step ltac:(lia) Hstep) as Hq.
  pose proof (Z.mul_div_le (hi - lo) step Hstep) as Hmul.
  replace (Z.to_nat ((hi - lo) / step + 1))
    with (S (Z.to_nat ((hi - lo) / step))) by lia.
  eexists. split; [reflexivity |].
  destruct (map_seq_ends (fun i => lo + Z.of_nat i * step)
              (Z.to_nat ((hi - lo) / step))) as [Hhead Hlast].
  split; [| split].
  - apply progression; [lia |]. rewrite Z2Nat.id by lia. lia.
  - rewrite Hhead. f_equal. lia.
  - rewrite Hlast. by rewrite Z2Nat.id by lia.
Qed.

Lemma py_range_down (lo hi step : Z) :
  lo <= hi -> 0 < step ->
  exists l, py_range hi (lo - 1) (- step) = Ok l
    /\ Forall (fun a => lo <= a <= hi) l
    /\ head l = Some hi
    /\ last l = Some (hi - (hi - lo) / step * step).
Proof.
  intros Hle Hstep. unfold py_range, range_length.
  destruct (Z.eqb_spec (- step) 0); [lia |].
  destruct (Z.ltb_spec 0 (- step)); [lia |].
  destruct (Z.ltb_spec (- step) 0); [| lia].
  destruct (Z.ltb_spec (lo - 1) hi); [| lia].
  replace (hi - (lo - 1) - 1) with (hi - lo) by lia.
  replace (- - step) with step by lia.
  pose proof (Z.div_pos (hi - lo) step ltac:(lia) Hstep) as Hq.
  pose proof (Z.mul_div_le (hi - lo) step Hstep) as Hmul.
  replace (Z.to_nat ((hi - lo) / step + 1))
    with (S (Z.to_nat ((hi - lo) / step))) by lia.
  eexists. split; [reflexivity |].
  destruct (map_seq_ends (fun i => hi + Z.of_nat i * - step)
              (Z.to_nat ((hi - lo) / step))) as [Hhead Hlast].
  split; [| split].
  - apply progression; [lia |]. rewrite Z2Nat.id by lia. lia.
  - rewrite Hhead. f_equal. lia.
  - rewrite Hlast. rewrite Z2Nat.id by lia. f_equal. lia.
Qed.

Lemma axis_sweep_in_range (lo hi step : Z) :
  lo <= hi -> 0 < step ->
  exists l, axis_sweep (lo, hi) step = Ok l
            /\ Forall (fun a => lo <= a <= hi) l.
Proof.
  intros Hle Hstep.
  destruct (py_range_up lo hi step Hle Hstep) as (up & Hup & Hall_up & _).
  destruct (py_range_down lo hi step Hle Hstep) as (down & Hdown & Hall_down & _).
  exists (up ++ down). unfold axis_sweep. cbn [fst snd]. rewrite Hup, Hdown.
  split; [reflexivity | by apply Forall_app].
Qed.

(** X16: the sweep of one axis in the servo test, for any range with
    [min <= max] and any positive step: every angle it commands is within
    the range; it goes up from the lower bound and then down from the
    upper bound; and when the step divides the width of the range it
    reaches the upper bound on the way up and the lower bound on the way
    down. *)
Theorem axis_sweep_stays_in_range (lo hi step : Z) :
  lo <= hi -> 0 < step ->
  exists up down,
    axis_sweep (lo, hi) step = Ok (up ++ down)
    /\ Forall (fun a => lo <= a <= hi) (up ++ down)
    /\ head up = Some lo /\ head down = Some hi
    /\ ((hi - lo) mod step = 0 -> last up = Some hi /\ last down = Some lo).
Proof.
  intros Hle Hstep.
  destruct (py_range_up lo hi step Hle Hstep) as (up & Hup & Hall_up & Hhu & Hlu).
  destruct (py_range_down lo hi step Hle Hstep) as (down & Hdown & Hall_down & Hhd & Hld).
  exists up, down. unfold axis_sweep. cbn [fst snd]. rewrite Hup, Hdown.
  split; [reflexivity |]. split; [by apply Forall_app |].
  split; [done |]. split; [done |].
  intros Hdiv. rewrite Hlu, Hld.
  assert ((hi - lo) / step * step = hi - lo).
  { pose proof (Z.div_mod (hi - lo) step ltac:(lia)). lia. }
  split; f_equal; lia.
Qed.

Lemma axis_sweep_stays_in_range_witness :
  exists up down,
    axis_sweep (SWEEP_PAN_RANGE source_sweep) (STEP_DEG source_sweep)
    = Ok (up ++ down)
    /\ Forall (fun a => 30 <= a <= 150) (up ++ down)
    /\ head up = Some 30 /\ head down = Some 150
    /\ last up = Some 150 /\ last down = Some 30.
Proof.
  destruct (axis_sweep_stays_in_range 30 150 5) as
    (up & down & Hs & Hall & Hhu & Hhd & Hlast); [lia | lia |].
  exists up, down. repeat (split; [assumption |]).
  apply Hlast. reflexivity.
Defined.

Lemma drive_app {D : Type} `{ServoDriver D} (calls1 calls2 : list (Z * Z)) (servo : D) :
  drive (calls1 ++ calls2) servo
  = match drive calls1 servo with
    | Ok servo' => drive calls2 servo'
    | Raise e => Raise e
    end.
Proof.
  revert servo. induction calls1 as [| [port angle] calls1 IH]; intros servo;
    [reflexivity |].
  cbn [app drive]. unfold mbind, result_bind.
  destruct (set_angle servo port (Int angle)); [apply IH | reflexivity].
Qed.

Lemma drive_StoreKit (calls : list (Z * Z)) (servo : PCA9685Servo StoreKit) :
  exists servo', drive calls servo = Ok servo'.
Proof.
  revert servo. induction calls as [| [port angle] calls IH]; intros servo;
    [by eexists |].
  cbn [drive set_angle PCA9685Servo_driver].
  unfold PCA9685Servo_set_angle, mbind, result_bind.
  cbn [py_int kit_write StoreKit_kit]. apply IH.
Qed.

Lemma drive_centre_calls (c : sweep_config) (servo : PCA9685Servo StoreKit) :
  PAN_PORT c <> TILT_PORT c ->
  exists servo',
    drive (centre_calls c) servo = Ok servo'
    /\ _kit servo' !! PAN_PORT c = Some (clamp_0_180 (CENTER_PAN c))
    /\ _kit servo' !! TILT_PORT c = Some (clamp_0_180 (CENTER_TILT c)).
Proof.
  intros Hne. eexists. split; [reflexivity |]. cbn [_kit].
  unfold StoreKit. split.
  - rewrite lookup_insert_ne by done. by rewrite lookup_insert_eq.
  - by rewrite lookup_insert_eq.
Qed.

(** X17: the servo test leaves both axes at their centre, however it
    stops: after [--once], and after Ctrl+C at any point of any cycle, the
    last two commands are the two centres, and a kit that keeps what it
    is sent ends with the (clamped) centres on the pan and tilt ports. *)
Theorem servo_test_ends_at_the_centre (c : sweep_config) (n k : nat)
    (servo : PCA9685Servo StoreKit) :
  PAN_PORT c <> TILT_PORT c ->
  0 < STEP_DEG c ->
  fst (SWEEP_PAN_RANGE c) <= snd (SWEEP_PAN_RANGE c) ->
  fst (SWEEP_TILT_RANGE c) <= snd (SWEEP_TILT_RANGE c) ->
  exists calls_once calls_stopped servo1 servo2,
    once c = Ok (calls_once ++ centre_calls c)
    /\ interrupted c n k = Ok (calls_stopped ++ centre_calls c)
    /\ drive (calls_once ++ centre_calls c) servo = Ok servo1
    /\ drive (calls_stopped ++ centre_calls c) servo = Ok servo2
    /\ _kit servo1 !! PAN_PORT c = Some (clamp_0_180 (CENTER_PAN c))
    /\ _kit servo1 !! TILT_PORT c = Some (clamp_0_180 (CENTER_TILT c))
    /\ _kit servo2 !! PAN_PORT c = Some (clamp_0_180 (CENTER_PAN c))
    /\ _kit servo2 !! TILT_PORT c = Some (clamp_0_180 (CENTER_TILT c)).
Proof.
  intros Hne Hstep Hpan Htilt.
  destruct (SWEEP_PAN_RANGE c) as [plo phi] eqn:Hpr.
  destruct (SWEEP_TILT_RANGE c) as [tlo thi] eqn:Htr. cbn [fst snd] in *.
  destruct (axis_sweep_in_range plo phi (STEP_DEG c) Hpan Hstep) as (pan & Hp & _).
  destruct (axis_sweep_in_range tlo thi (STEP_DEG c) Htilt Hstep) as (tilt & Ht & _).
  assert (Hcycle : cycle c
                   = Ok (((fun a => (PAN_PORT c, a)) <$> pan)
                         ++ ((fun a => (TILT_PORT c, a)) <$> tilt))).
  { unfold cycle. by rewrite Hpr, Htr, Hp, Ht. }
  set (calls := ((fun a => (PAN_PORT c, a)) <$> pan)
                ++ ((fun a => (TILT_PORT c, a)) <$> tilt)) in *.
  exists calls, (concat (replicate n calls) ++ take k calls).
  destruct (drive_StoreKit calls servo) as [s1 Hs1].
  destruct (drive_StoreKit (concat (replicate n calls) ++ take k calls) servo)
    as [s2 Hs2].
  destruct (drive_centre_calls c s1 Hne) as (s1' & Hd1 & Hp1 & Ht1).
  destruct (drive_centre_calls c s2 Hne) as (s2' & Hd2 & Hp2 & Ht2).
  exists s1', s2'. split; [| split; [| split; [| split]]].
  - unfold once. by rewrite Hcycle.
  - unfold interrupted. rewrite Hcycle. cbn. by rewrite <- app_assoc.
  - by rewrite drive_app, Hs1.
  - by rewrite drive_app, Hs2.
  - done.
Qed.

(* ================================================================== *)
(** ** Further facts: errors, tilt and read-back *)

Lemma unknown_classes_stop_main_witness :
  main source_config default_arguments
    (get_class_ids id id coco_items ["bird"%string]) coco_names
    [Frame cat_frame] mock_world
  = (Raise SystemExit, mock_world).
Proof.
  apply (proj2 (unknown_classes_stop_main (D:=MockServo) id id coco_items
                  ["bird"%string] source_config default_arguments coco_names
                  [Frame cat_frame] mock_world)).
  vm_compute. reflexivity.
Defined.

Lemma servo_test_ends_at_the_centre_witness :
  exists calls servo1,
    once source_sweep = Ok (calls ++ centre_calls source_sweep)
    /\ drive (calls ++ centre_calls source_sweep)
         {| _kit := (∅ : StoreKit) |} = Ok servo1
    /\ _kit servo1 !! PAN_PORT source_sweep
       = Some (clamp_0_180 (CENTER_PAN source_sweep))
    /\ _kit servo1 !! TILT_PORT source_sweep
       = Some (clamp_0_180 (CENTER_TILT source_sweep)).
Proof.
  destruct (servo_test_ends_at_the_centre source_sweep 2 7
              {| _kit := (∅ : StoreKit) |})
    as (c1 & c2 & s1 & s2 & H1 & _ & H3 & _ & H5 & H6 & _).
  - vm_compute. discriminate.
  - vm_compute. reflexivity.
  - vm_compute. discriminate.
  - vm_compute. discriminate.
  - exists c1, s1. repeat (split; [assumption |]). assumption.
Defined.

(** X18: the error of an axis is always computed: the divisor
    [max(center, 1)] is never zero, so no frame size (not even an empty
    frame, whose centre is zero) makes the tracking update divide by
    zero, and the error after inversion and dead zone is the [int] zero or
    a float. *)
Theorem error_never_divides_by_zero (cfg : config)
    (best_c center : float) (invert : bool) :
  exists e err,
    raw_error best_c center = Ok e
    /\ axis_error cfg best_c center invert = Ok err
    /\ (err = Int 0 \/ exists f, err = Flt f).
Proof.
  destruct (raw_error_Ok best_c center) as [e He].
  destruct (axis_error_Ok cfg best_c center invert) as (err & Herr & Hkind).
  by exists e, err.
Qed.

(** X19: a frame without a target never moves the tilt axis: whether the
    loop holds or scans, the tilt angle it keeps is the one it had. *)
Theorem miss_keeps_the_tilt {D : Type} `{ServoDriver D}
    (cfg : config) (args : arguments) (class_ids : list Z)
    (names : gmap Z string) (f : frame) (st st' : vars) (w w' : world D) :
  is_miss args class_ids names f ->
  frame_body cfg args class_ids names f st w = (Ok st', w') ->
  tilt_angle st' = tilt_angle st.
Proof.
  intros (cx & cy & b & Hobs & Hb) [] %frame_body_Ok; subst st';
    [congruence | reflexivity | reflexivity].
Qed.

Lemma miss_keeps_the_tilt_witness :
  tilt_angle after_first_scan = tilt_angle near_max.
Proof.
  apply (miss_keeps_the_tilt source_config default_arguments cat_person
           coco_names no_detection near_max after_first_scan mock_world
           (snd (frame_body source_config default_arguments cat_person
                   coco_names no_detection near_max mock_world))).
  - eexists _, _, _. vm_compute. split; reflexivity.
  - vm_compute. reflexivity.
Defined.

(** X20: on a kit that reads back what was written, the hardware driver
    reads back the truncated, clamped angle it was given, as the mock
    does, whenever that angle is not zero. *)
Theorem PCA9685Servo_reads_back_nonzero (self : PCA9685Servo StoreKit)
    (port : Z) (angle : num) (a : Z) :
  py_int angle = Ok a ->
  Z.max 0 (Z.min 180 a) <> 0 ->
  exists self',
    set_angle self port angle = Ok self'
    /\ get_angle self' port = Ok (Int (Z.max 0 (Z.min 180 a))).
Proof.
  intros Ha Hnz. cbn [set_angle get_angle PCA9685Servo_driver].
  unfold PCA9685Servo_set_angle, PCA9685Servo_get_angle, mbind, result_bind.
  rewrite Ha. cbn [kit_write kit_read StoreKit_kit _kit].
  eexists. split; [reflexivity |]. cbn [_kit]. unfold StoreKit.
  rewrite lookup_insert_eq. cbn [fmap option_fmap option_map truthy].
  unfold clamp_0_180.
  destruct (Z.eqb_spec (Z.max 0 (Z.min 180 a)) 0); [done | reflexivity].
Qed.

Lemma PCA9685Servo_reads_back_nonzero_witness :
  exists self',
    set_angle {| _kit := (∅ : StoreKit) |} 0 (Flt f106_5) = Ok self'
    /\ get_angle self' 0 = Ok (Int (Z.max 0 (Z.min 180 106))).
Proof.
  apply (PCA9685Servo_reads_back_nonzero {| _kit := (∅ : StoreKit) |} 0
           (Flt f106_5) 106); [vm_compute; reflexivity | discriminate].
Defined.
